(** * Soil-sensor dashboard: CSV normalisation and temporal aggregation

    A shallow embedding of the two computations of [App] (the React
    component of the repository):

      - [handleFileUpload]'s row normalisation (the [complete] callback), and
      - the [filteredAndAggregatedData] memo, the aggregation engine.

    The component calls into the JavaScript runtime ([Date], [parseFloat],
    [Number.prototype.toFixed], plain objects, [Array.prototype.sort]) and
    into date-fns ([format], [isValid], [isWithinInterval],
    [differenceInDays], [startOfHour], [startOfDay], [startOfWeek]).  Those
    are modelled first, from ECMA-262 and from the date-fns 3.x/4.x sources;
    the application code follows and keeps the names of the source. *)

From Stdlib Require Import ZArith List Bool Lia String Ascii.
From Stdlib Require Import Floats Uint63 DecimalString DecimalN.
From Stdlib Require Import Sorted Permutation.
From Stdlib Require OrderedTypeEx.
Import ListNotations.

Local Open Scope string_scope.
Local Open Scope list_scope.
Local Open Scope Z_scope.

(* ================================================================== *)
(** ** Completions: a value or a thrown exception                      *)
(* ================================================================== *)

Inductive JsError : Type :=
| RangeError (msg : string).

Inductive completion (A : Type) : Type :=
| Normal (a : A)
| Throw (e : JsError).
Arguments Normal {A} a.
Arguments Throw {A} e.

Definition bind {A B} (c : completion A) (k : A -> completion B) : completion B :=
  match c with
  | Normal a => k a
  | Throw e => Throw e
  end.

Notation "x <- c ;; k" := (bind c (fun x => k))
  (at level 61, c at next level, right associativity).

(** [Array.prototype.forEach] / [reduce] with a callback that may throw. *)
Fixpoint foldM {A S} (f : S -> A -> completion S) (l : list A) (s : S) : completion S :=
  match l with
  | [] => Normal s
  | a :: l' => s' <- f s a ;; foldM f l' s'
  end.

(** [Array.prototype.map] with a callback that may throw. *)
Fixpoint mapM {A B} (f : A -> completion B) (l : list A) : completion (list B) :=
  match l with
  | [] => Normal []
  | a :: l' => b <- f a ;; bs <- mapM f l' ;; Normal (b :: bs)
  end.

(* ================================================================== *)
(** ** JavaScript numbers (IEEE 754 binary64)                          *)
(* ================================================================== *)

Module Num.

Definition of_Z (z : Z) : float := PrimFloat.of_uint63 (Uint63.of_Z z).

(** ToBoolean on a Number: [NaN], [+0] and [-0] are falsy. *)
Definition truthy (x : float) : bool := negb (PrimFloat.is_nan x || PrimFloat.is_zero x).

(** [x || 0] *)
Definition or_zero (x : float) : float := if truthy x then x else PrimFloat.zero.

(** [Number.isFinite] *)
Definition isFinite (x : float) : bool := PrimFloat.is_finite x.

(** [Number(x.toFixed(2))].

    ECMA-262 [Number.prototype.toFixed]: a non-finite [x] prints as
    ["NaN"], ["Infinity"], ["-Infinity"] and [Number] reads it back.
    Otherwise the sign is split off ([-0] counts as [0]), and for
    [|x| < 10^21] the digits are those of the integer [n] for which
    [n / 100 - |x|] is closest to zero, the larger [n] on a tie; [Number]
    then yields the double nearest to [n / 100], negated when [x < 0].

    [n] is computed exactly from the mantissa and exponent of [x].  When
    [n < 2^53] the conversion of [n] is exact and the IEEE division by
    [100] is the correctly rounded quotient.  When [n >= 2^53] then
    [|x| >= 2^46], where doubles are multiples of [2^-6] at least: the
    decimal string is within [0.005] of [x], closer than half the gap to
    either neighbour, and [Number] reads [x] back (the same for
    [|x| >= 10^21], printed by [ToString]). *)
Definition toFixed2_digits (m : positive) (e : Z) : Z :=
  if 0 <=? e then 100 * Zpos m * 2 ^ e
  else (200 * Zpos m + 2 ^ (- e)) / 2 ^ (- e + 1).

Definition toFixed2 (x : float) : float :=
  match Prim2SF x with
  | S754_zero _ => PrimFloat.zero
  | S754_finite s m e =>
      let n := toFixed2_digits m e in
      if n <? 2 ^ 53 then
        let q := (of_Z n / of_Z 100)%float in
        if s then (- q)%float else q
      else x
  | _ => x
  end.

(** Left-to-right accumulation [acc += v], as [forEach] performs it. *)
Definition sum (vs : list float) : float :=
  fold_left (fun acc v => (acc + v)%float) vs PrimFloat.zero.

End Num.

(* ================================================================== *)
(** ** JavaScript strings and plain objects                            *)
(* ================================================================== *)

Module Str.

Definition is_digit (c : ascii) : bool :=
  let n := N_of_ascii c in (48 <=? n)%N && (n <=? 57)%N.

Definition digit_val (c : ascii) : Z := Z.of_N (N_of_ascii c) - 48.

Fixpoint all_digits (s : string) : bool :=
  match s with
  | EmptyString => true
  | String c s' => is_digit c && all_digits s'
  end.

(** Value of a string of decimal digits, most significant first. *)
Fixpoint digits_val (acc : Z) (s : string) : Z :=
  match s with
  | EmptyString => acc
  | String c s' => digits_val (10 * acc + digit_val c) s'
  end.

(** Decimal digits of a natural number, no leading zeros (["0"] for 0). *)
Definition of_nonneg (z : Z) : string :=
  NilZero.string_of_uint (N.to_uint (Z.to_N z)).

Fixpoint repeat0 (n : nat) : string :=
  match n with O => EmptyString | S n' => String "0" (repeat0 n') end.

(** [String.prototype.padStart(len, "0")] *)
Definition padStart0 (len : nat) (s : string) : string :=
  (repeat0 (len - String.length s)%nat ++ s)%string.

(** [a.localeCompare(b) <= 0], taken as code-unit lexicographic order.
    The strings compared by the application are bucket keys of one
    format, digits at the same positions, where collation and code-unit
    order agree. *)
Definition localeCompare (a b : string) : comparison := String.compare a b.

End Str.

Module Obj.

(** A plain object used as a dictionary: its own enumerable string-keyed
    properties, in creation order. *)
Definition t (V : Type) : Type := list (string * V).

Fixpoint get_own {V} (o : t V) (k : string) : option V :=
  match o with
  | [] => None
  | (k', v) :: o' => if String.eqb k k' then Some v else get_own o' k
  end.

(** [o[k] = v]: an existing property keeps its place. *)
Fixpoint set {V} (o : t V) (k : string) (v : V) : t V :=
  match o with
  | [] => [(k, v)]
  | (k', v') :: o' =>
      if String.eqb k k' then (k', v) :: o' else (k', v') :: set o' k v
  end.

(** Properties every object literal inherits from [Object.prototype];
    reading them through [o[k]] yields a function (or, for [__proto__],
    the prototype object): a truthy value that is not an own property. *)
Definition prototype_keys : list string :=
  [ "constructor"; "hasOwnProperty"; "isPrototypeOf"; "propertyIsEnumerable";
    "toLocaleString"; "toString"; "valueOf"; "__proto__";
    "__defineGetter__"; "__defineSetter__"; "__lookupGetter__";
    "__lookupSetter__" ].

Definition inherited (k : string) : bool :=
  existsb (String.eqb k) prototype_keys.

(** An array index: the canonical decimal form of an integer in
    [0, 2^32 - 2]. *)
Definition is_array_index (k : string) : bool :=
  match k with
  | EmptyString => false
  | String c r =>
      Str.all_digits k
      && (negb (Ascii.eqb c "0") || String.eqb r EmptyString)
      && (Str.digits_val 0 k <? 2 ^ 32 - 1)
  end.

Fixpoint insert_index {V} (kv : string * V) (l : t V) : t V :=
  match l with
  | [] => [kv]
  | kv' :: l' =>
      if Str.digits_val 0 (fst kv) <=? Str.digits_val 0 (fst kv')
      then kv :: l else kv' :: insert_index kv l'
  end.

(** [Object.entries(o)] (OrdinaryOwnPropertyKeys): array-index keys in
    ascending numeric order, then the other keys in creation order. *)
Definition entries {V} (o : t V) : list (string * V) :=
  fold_right insert_index [] (filter (fun kv => is_array_index (fst kv)) o)
  ++ filter (fun kv => negb (is_array_index (fst kv))) o.

End Obj.

Arguments Obj.inherited : simpl never.

(* ================================================================== *)
(** ** Calendar arithmetic (proleptic Gregorian, as ECMA-262 dates)    *)
(* ================================================================== *)

Module Cal.

Definition msPerMinute : Z := 60000.
Definition msPerHour : Z := 3600000.
Definition msPerDay : Z := 86400000.

Definition is_leap (y : Z) : bool :=
  ((y mod 4 =? 0) && negb (y mod 100 =? 0)) || (y mod 400 =? 0).

Definition days_in_month (y m : Z) : Z :=
  if m =? 2 then (if is_leap y then 29 else 28)
  else if (m =? 4) || (m =? 6) || (m =? 9) || (m =? 11) then 30
  else 31.

(** Day number (days since 1970-01-01) of the civil date [y-m-d]. *)
Definition days_from_civil (y m d : Z) : Z :=
  let y' := if m <=? 2 then y - 1 else y in
  let era := y' / 400 in
  let yoe := y' - era * 400 in
  let doy := (153 * (if 2 <? m then m - 3 else m + 9) + 2) / 5 + d - 1 in
  let doe := yoe * 365 + yoe / 4 - yoe / 100 + doy in
  era * 146097 + doe - 719468.

(** Civil date [(year, month, day)] of a day number. *)
Definition civil_from_days (z : Z) : Z * Z * Z :=
  let z' := z + 719468 in
  let era := z' / 146097 in
  let doe := z' - era * 146097 in
  let yoe := (doe - doe / 1460 + doe / 36524 - doe / 146096) / 365 in
  let doy := doe - (365 * yoe + yoe / 4 - yoe / 100) in
  let mp := (5 * doy + 2) / 153 in
  let d := doy - (153 * mp + 2) / 5 + 1 in
  let m := if mp <? 10 then mp + 3 else mp - 9 in
  let y := yoe + era * 400 in
  (if m <=? 2 then y + 1 else y, m, d).

(** ECMA-262 WeekDay: 0 is Sunday; day number 0 was a Thursday. *)
Definition week_day (day : Z) : Z := (day + 4) mod 7.

End Cal.

(* ================================================================== *)
(** ** Date objects                                                    *)
(* ================================================================== *)

(** A [Date] holds a time value: milliseconds since the epoch, or [NaN]
    ("Invalid Date").  Time values are taken inside the range ECMA-262
    allows, away from its two ends, so that moving to the start of an hour,
    day or week never leaves it. *)
Inductive Date : Type :=
| TimeValue (t : Z)
| InvalidDate.

(** date-fns [isValid], on a [Date]: [!isNaN(+date)]. *)
Definition isValid (d : Date) : bool :=
  match d with TimeValue _ => true | InvalidDate => false end.

(** Tokens of the date-fns format strings the component uses; a format
    string is written as the list of its tokens. *)
Inductive FormatToken : Type :=
| Tyyyy | TMM | Tdd | THH | Tmm
| Lit (s : string).

(** ['yyyy-MM-dd'] *)
Definition fmt_yyyy_MM_dd : list FormatToken :=
  [Tyyyy; Lit "-"; TMM; Lit "-"; Tdd].
(** ['yyyy-MM-dd HH:00'] *)
Definition fmt_yyyy_MM_dd_HH_00 : list FormatToken :=
  [Tyyyy; Lit "-"; TMM; Lit "-"; Tdd; Lit " "; THH; Lit ":"; Lit "00"].
(** ['MM/dd'] *)
Definition fmt_MM_dd : list FormatToken := [TMM; Lit "/"; Tdd].
(** ['MM/dd HH:mm'] *)
Definition fmt_MM_dd_HH_mm : list FormatToken :=
  [TMM; Lit "/"; Tdd; Lit " "; THH; Lit ":"; Tmm].

(** date-fns [addLeadingZeros], for a non-negative number. *)
Definition addLeadingZeros (n : Z) (targetLength : nat) : string :=
  Str.padStart0 targetLength (Str.of_nonneg n).

(* ================================================================== *)
(** ** A reference [parseFloat]                                        *)
(* ================================================================== *)

(** ECMA-262 [parseFloat]: leading white space is skipped, the longest
    prefix that is a [StrDecimalLiteral] is read, and its mathematical
    value is rounded to the nearest double; [NaN] when no prefix fits.
    White space is ASCII white space here.  The component's definitions
    take [parseFloat] as a parameter; this one instantiates it. *)
Module RefParse.

Definition is_space (c : ascii) : bool :=
  let n := N_of_ascii c in (n =? 32)%N || ((9 <=? n)%N && (n <=? 13)%N).

Fixpoint trim_start (s : string) : string :=
  match s with
  | String c r => if is_space c then trim_start r else s
  | EmptyString => EmptyString
  end.

(** The leading decimal digits of [s], and what follows them. *)
Fixpoint span_digits (s : string) : string * string :=
  match s with
  | String c r =>
      if Str.is_digit c
      then let (d, rest) := span_digits r in (String c d, rest)
      else (EmptyString, s)
  | EmptyString => (EmptyString, EmptyString)
  end.

Definition digits_opt (s : string) : option Z :=
  let (d, _) := span_digits s in
  if String.eqb d EmptyString then None else Some (Str.digits_val 0 d).

(** Value of the [ExponentPart] at the head of [s]; 0 when there is none. *)
Definition exponent_part (s : string) : Z :=
  match s with
  | String c r =>
      if Ascii.eqb c "e" || Ascii.eqb c "E" then
        match r with
        | String "+" r' => match digits_opt r' with Some n => n | None => 0 end
        | String "-" r' => match digits_opt r' with Some n => - n | None => 0 end
        | _ => match digits_opt r with Some n => n | None => 0 end
        end
      else 0
  | EmptyString => 0
  end.

Definition round_half_even (p q : Z) : Z :=
  let f := p / q in
  let r := p mod q in
  if 2 * r <? q then f
  else if q <? 2 * r then f + 1
  else if Z.even f then f else f + 1.

(** [p / q < 2 ^ k], for [q > 0]. *)
Definition below_pow2 (p q k : Z) : bool :=
  if 0 <=? k then p <? q * 2 ^ k else p * 2 ^ (- k) <? q.

(** The double nearest to [p / q] (ties to even), for [p >= 0], [q > 0]:
    a 53-bit significand at the exponent of [p / q], or at the exponent
    of the subnormals. *)
Definition nearest_double (p q : Z) : float :=
  if p =? 0 then PrimFloat.zero
  else
    let e0 := Z.log2 p - Z.log2 q - 52 in
    let e1 := if below_pow2 p q (52 + e0) then e0 - 1 else e0 in
    let e := Z.max e1 (-1074) in
    let m := if 0 <=? e then round_half_even p (q * 2 ^ e)
             else round_half_even (p * 2 ^ (- e)) q in
    Z.ldexp (Num.of_Z m) e.

(** [m * 10 ^ e10] as a double. *)
Definition decimal_value (m e10 : Z) : float :=
  if 0 <=? e10 then nearest_double (m * 10 ^ e10) 1
  else nearest_double m (10 ^ (- e10)).

Definition unsigned_literal (s : string) : float :=
  if String.prefix "Infinity" s then PrimFloat.infinity
  else
    let (ip, r1) := span_digits s in
    match r1 with
    | String "." r2 =>
        let (fp, r3) := span_digits r2 in
        if String.eqb ip EmptyString && String.eqb fp EmptyString then PrimFloat.nan
        else decimal_value (Str.digits_val 0 (ip ++ fp)%string)
                           (exponent_part r3 - Z.of_nat (String.length fp))
    | _ =>
        if String.eqb ip EmptyString then PrimFloat.nan
        else decimal_value (Str.digits_val 0 ip) (exponent_part r1)
    end.

Definition parseFloat (s : string) : float :=
  match trim_start s with
  | String "+" r => unsigned_literal r
  | String "-" r => (- unsigned_literal r)%float
  | t => unsigned_literal t
  end.

End RefParse.

(* ================================================================== *)
(** ** Local time, date-fns, and the component                         *)
(* ================================================================== *)

Section App.

(** Local time minus UTC, in milliseconds: [-60000 * getTimezoneOffset()].
    The zone has one fixed offset (no daylight saving), as Asia/Seoul. *)
Variable tzOffset : Z.

Definition localTime (t : Z) : Z := t + tzOffset.
Definition localDay (t : Z) : Z := localTime t / Cal.msPerDay.

Definition getFullYear (t : Z) : Z := fst (fst (Cal.civil_from_days (localDay t))).
(** Month as date-fns prints it, 1 to 12 ([getMonth() + 1]). *)
Definition getMonth1 (t : Z) : Z := snd (fst (Cal.civil_from_days (localDay t))).
Definition getDate (t : Z) : Z := snd (Cal.civil_from_days (localDay t)).
Definition getHours (t : Z) : Z := (localTime t mod Cal.msPerDay) / Cal.msPerHour.
Definition getMinutes (t : Z) : Z := (localTime t mod Cal.msPerHour) / Cal.msPerMinute.
Definition getDay (t : Z) : Z := Cal.week_day (localDay t).

(** *** date-fns *)

(** [startOfHour]: [setMinutes(0, 0, 0)] in local time. *)
Definition startOfHour (d : Date) : Date :=
  match d with
  | TimeValue t => TimeValue (t - localTime t mod Cal.msPerHour)
  | InvalidDate => InvalidDate
  end.

(** [startOfDay]: [setHours(0, 0, 0, 0)] in local time. *)
Definition startOfDay (d : Date) : Date :=
  match d with
  | TimeValue t => TimeValue (localDay t * Cal.msPerDay - tzOffset)
  | InvalidDate => InvalidDate
  end.

(** [startOfWeek(date, { weekStartsOn })]:
    [diff = (day < weekStartsOn ? 7 : 0) + day - weekStartsOn]; the date
    moves back [diff] days, then to local midnight. *)
Definition startOfWeekAt (weekStartsOn : Z) (d : Date) : Date :=
  match d with
  | TimeValue t =>
      let day := getDay t in
      let diff := (if day <? weekStartsOn then 7 else 0) + day - weekStartsOn in
      TimeValue ((localDay t - diff) * Cal.msPerDay - tzOffset)
  | InvalidDate => InvalidDate
  end.

(** [startOfWeek(date)], as the component calls it: without options
    [weekStartsOn] is 0, Sunday. *)
Definition startOfWeek (d : Date) : Date := startOfWeekAt 0 d.

(** The week start the specification names: the ISO week begins on
    Monday (date-fns [startOfISOWeek], [weekStartsOn] 1). *)
Definition startOfISOWeek (d : Date) : Date := startOfWeekAt 1 d.

(** The [y] formatter prints the year of the era. *)
Definition formatToken (t : Z) (tok : FormatToken) : string :=
  match tok with
  | Tyyyy =>
      let signedYear := getFullYear t in
      addLeadingZeros (if 0 <? signedYear then signedYear else 1 - signedYear) 4
  | TMM => addLeadingZeros (getMonth1 t) 2
  | Tdd => addLeadingZeros (getDate t) 2
  | THH => addLeadingZeros (getHours t) 2
  | Tmm => addLeadingZeros (getMinutes t) 2
  | Lit s => s
  end.

(** [format(date, formatStr)]: throws on an invalid date. *)
Definition format (d : Date) (fmt : list FormatToken) : completion string :=
  match d with
  | TimeValue t => Normal (String.concat EmptyString (map (formatToken t) fmt))
  | InvalidDate => Throw (RangeError "Invalid time value")
  end.

(** [isWithinInterval(date, { start, end })], date-fns 3.x/4.x:
    [[+start, +end].sort((a, b) => a - b)], then
    [time >= startTime && time <= endTime].  A comparison with [NaN] is
    false.  (date-fns 2.x threw a RangeError unless [start <= end].) *)
Definition isWithinInterval (date start end_ : Date) : bool :=
  match date, start, end_ with
  | TimeValue time, TimeValue s, TimeValue e =>
      let (startTime, endTime) := if 0 <? s - e then (e, s) else (s, e) in
      (startTime <=? time) && (time <=? endTime)
  | _, _, _ => false
  end.

(** The same function in date-fns 2.x, for comparison: it raised unless
    [startTime <= endTime] ([NaN] included). *)
Definition isWithinInterval_v2 (date start end_ : Date) : completion bool :=
  match start, end_ with
  | TimeValue s, TimeValue e =>
      if s <=? e then
        Normal (match date with
                | TimeValue time => (s <=? time) && (time <=? e)
                | InvalidDate => false
                end)
      else Throw (RangeError "Invalid interval")
  | _, _ => Throw (RangeError "Invalid interval")
  end.

(** [compareLocalAsc]: the sign of the first differing local field, year
    first.  Under a fixed offset this is the sign of the difference of
    the time values. *)
Definition compareLocalAsc (later earlier : Z) : Z := Z.sgn (later - earlier).

(** [differenceInCalendarDays]: difference of the local day numbers. *)
Definition differenceInCalendarDays (later earlier : Z) : Z :=
  localDay later - localDay earlier.

(** [differenceInDays(laterDate, earlierDate)]; [None] is [NaN]. *)
Definition differenceInDays (laterDate earlierDate : Date) : option Z :=
  match laterDate, earlierDate with
  | TimeValue later, TimeValue earlier =>
      let sign := compareLocalAsc later earlier in
      let difference := Z.abs (differenceInCalendarDays later earlier) in
      (* laterDate.setDate(laterDate.getDate() - sign * difference) *)
      let later' := later - sign * difference * Cal.msPerDay in
      let isLastDayNotFull :=
        if compareLocalAsc later' earlier =? - sign then 1 else 0 in
      Some (sign * (difference - isLastDayNotFull))
  | _, _ => None
  end.

(** *** A reference [new Date(string)]

    Covers the ECMA-262 date-time string forms [YYYY-MM-DD] (read as UTC)
    and [YYYY-MM-DDTHH:mm] (read as local time), and the same with a space
    for [T], which engines read as local time as well.  Every other
    string is left to the engine by ECMA-262 and is not covered: the
    component's definitions below take the constructor as a parameter. *)

Definition civil_ok (y m d : Z) : bool :=
  (1 <=? m) && (m <=? 12) && (1 <=? d) && (d <=? Cal.days_in_month y m).

Definition parse_ymd (s : string) : option Z :=
  let ys := substring 0 4 s in
  let ms := substring 5 2 s in
  let ds := substring 8 2 s in
  if (String.length s =? 10)%nat
     && Str.all_digits ys && Str.all_digits ms && Str.all_digits ds
     && String.eqb (substring 4 1 s) "-" && String.eqb (substring 7 1 s) "-"
  then
    let y := Str.digits_val 0 ys in
    let m := Str.digits_val 0 ms in
    let d := Str.digits_val 0 ds in
    if civil_ok y m d then Some (Cal.days_from_civil y m d) else None
  else None.

Definition parse_hm (s : string) : option Z :=
  let hs := substring 0 2 s in
  let ms := substring 3 2 s in
  if (String.length s =? 5)%nat
     && Str.all_digits hs && Str.all_digits ms
     && String.eqb (substring 2 1 s) ":"
  then
    let h := Str.digits_val 0 hs in
    let m := Str.digits_val 0 ms in
    if (h <=? 23) && (m <=? 59)
    then Some (h * Cal.msPerHour + m * Cal.msPerMinute) else None
  else None.

Definition Date_parse (s : string) : Date :=
  if (String.length s =? 10)%nat then
    match parse_ymd s with
    | Some day => TimeValue (day * Cal.msPerDay)
    | None => InvalidDate
    end
  else if (String.length s =? 16)%nat
          && (String.eqb (substring 10 1 s) "T" || String.eqb (substring 10 1 s) " ")
  then
    match parse_ymd (substring 0 10 s), parse_hm (substring 11 5 s) with
    | Some day, Some ms => TimeValue (day * Cal.msPerDay + ms - tzOffset)
    | _, _ => InvalidDate
    end
  else InvalidDate.

(** *** The runtime's parsers

    [new Date(string)] and [parseFloat(string)] are taken as they come:
    everything below holds for any behaviour of the two. *)
Variable newDate : string -> Date.
Variable parseFloat : string -> float.

(** *** types.ts *)

(** A parsed CSV row.  With [header: true] a row maps column names to
    strings; a column the file lacks reads as [undefined] ([None]). *)
Record RawSensorData : Type := {
  raw_serialNumber : option string;   (* '시리얼넘버' *)
  raw_location     : option string;   (* '멀칭 장소' *)
  raw_battery      : option string;   (* '베터리' *)
  raw_timestamp    : option string;   (* '일시' *)
  raw_moisture     : option string;   (* '토양수분' *)
  raw_EC           : option string;   (* 'EC' *)
  raw_temperature  : option string    (* '지온' *)
}.

Record SensorData : Type := {
  serialNumber : string;
  location     : string;
  battery      : float;
  timestamp    : Date;
  moisture     : float;
  ec           : float;
  temperature  : float
}.

Inductive AggregationMode : Type := weekly | daily | hourly.

(** *** handleFileUpload: the [complete] callback *)

(** [new Date(v)] on a field: [new Date(undefined)] is invalid. *)
Definition newDate_field (v : option string) : Date :=
  match v with Some s => newDate s | None => InvalidDate end.

(** [parseFloat(v)] on a field: [parseFloat(undefined)] is [NaN]. *)
Definition parseFloat_field (v : option string) : float :=
  match v with Some s => parseFloat s | None => PrimFloat.nan end.

(** [v || dflt] on a string field: [undefined] and the empty string are falsy. *)
Definition or_default (v : option string) (dflt : string) : string :=
  match v with
  | Some s => if String.eqb s EmptyString then dflt else s
  | None => dflt
  end.

Definition toSensorData (row : RawSensorData) : SensorData :=
  let date := newDate_field (raw_timestamp row) in
  {| serialNumber := or_default (raw_serialNumber row) "N/A";
     location     := or_default (raw_location row) "Unknown";
     battery      := Num.or_zero (parseFloat_field (raw_battery row));
     timestamp    := date;
     moisture     := Num.or_zero (parseFloat_field (raw_moisture row));
     ec           := Num.or_zero (parseFloat_field (raw_EC row));
     temperature  := Num.or_zero (parseFloat_field (raw_temperature row)) |}.

(** [results.data.map(...).filter(d => isValid(d.timestamp))] *)
Definition parsedData (rows : list RawSensorData) : list SensorData :=
  filter (fun d => isValid (timestamp d)) (map toSensorData rows).

(** [Array.from(new Set(xs))]: first occurrences, in order. *)
Fixpoint uniq_from (seen : list string) (xs : list string) : list string :=
  match xs with
  | [] => []
  | x :: xs' =>
      if existsb (String.eqb x) seen then uniq_from seen xs'
      else x :: uniq_from (x :: seen) xs'
  end.

Definition uniq (xs : list string) : list string := uniq_from [] xs.

(** The [locations] memo. *)
Definition locations (data : list SensorData) : list string :=
  uniq (map location data).

(** The component's state that the two computations read and write. *)
Record AppState : Type := {
  data              : list SensorData;
  startDate         : string;
  endDate           : string;
  selectedLocations : list string
}.

Definition initialState : AppState :=
  {| data := []; startDate := EmptyString; endDate := EmptyString; selectedLocations := [] |}.

Definition getTime (d : SensorData) : Z :=
  match timestamp d with TimeValue t => t | InvalidDate => 0 end.

(** [Math.min(...dates)] and [Math.max(...dates)] on a non-empty array. *)
Definition minTime (ts : list Z) : Z := fold_right Z.min (hd 0 ts) ts.
Definition maxTime (ts : list Z) : Z := fold_right Z.max (hd 0 ts) ts.

(** State after the [complete] callback ran on the parsed rows.  With no
    valid row the callback alerts and returns, leaving the state. *)
Definition handleFileUpload (st : AppState) (rows : list RawSensorData) : AppState :=
  let parsed := parsedData rows in
  if (List.length parsed =? 0)%nat then st
  else
    let dates := map getTime parsed in
    (* a throw inside the try block is caught: the setters before it ran *)
    match format (TimeValue (minTime dates)) fmt_yyyy_MM_dd with
    | Normal s =>
        match format (TimeValue (maxTime dates)) fmt_yyyy_MM_dd with
        | Normal e =>
            {| data := parsed; startDate := s; endDate := e;
               selectedLocations := uniq (map location parsed) |}
        | Throw _ =>
            {| data := parsed; startDate := s; endDate := endDate st;
               selectedLocations := selectedLocations st |}
        end
    | Throw _ =>
        {| data := parsed; startDate := startDate st; endDate := endDate st;
           selectedLocations := selectedLocations st |}
    end.

Definition clearData (st : AppState) : AppState := initialState.

(** *** filteredAndAggregatedData *)

(** Running sums of one [(timeKey, location)] group.  [count] holds a
    small non-negative integer, exact as a double; it is kept in [Z] and
    converted where it divides. *)
Record Stats : Type := {
  sum_moisture    : float;
  sum_ec          : float;
  sum_temperature : float;
  count           : Z
}.

(** One element of the memo's array: [date], [displayDate], then the
    [`${loc}_moisture`], [`${loc}_ec`], [`${loc}_temperature`] properties
    in the order they were assigned. *)
Record ChartRow : Type := {
  date        : string;
  displayDate : string;
  series      : list (string * float)
}.

(** [daysDiff > 31 ? 'weekly' : daysDiff > 7 ? 'daily' : 'hourly'];
    a comparison with [NaN] is false. *)
Definition modeOfDiff (daysDiff : option Z) : AggregationMode :=
  match daysDiff with
  | Some n => if 31 <? n then weekly else if 7 <? n then daily else hourly
  | None => hourly
  end.

Definition aggregationMode (start end_ : Date) : AggregationMode :=
  modeOfDiff (differenceInDays end_ start).

(** [selectedLocations.includes(loc)] *)
Definition includes (l : list string) (x : string) : bool :=
  existsb (String.eqb x) l.

Definition keep (start end_ : Date) (selected : list string) (d : SensorData) : bool :=
  isWithinInterval (timestamp d) start end_
  && ((List.length selected =? 0)%nat || includes selected (location d)).

Definition timeKeyOf (mode : AggregationMode) (ts : Date) : completion string :=
  match mode with
  | weekly => format (startOfWeek ts) fmt_yyyy_MM_dd
  | daily => format (startOfDay ts) fmt_yyyy_MM_dd
  | hourly => format (startOfHour ts) fmt_yyyy_MM_dd_HH_00
  end.

Definition emptyStats : Stats :=
  {| sum_moisture := PrimFloat.zero; sum_ec := PrimFloat.zero;
     sum_temperature := PrimFloat.zero; count := 0 |}.

Definition addStats (g : Stats) (d : SensorData) : Stats :=
  {| sum_moisture := (sum_moisture g + moisture d)%float;
     sum_ec := (sum_ec g + ec d)%float;
     sum_temperature := (sum_temperature g + temperature d)%float;
     count := count g + 1 |}.

Definition Groups : Type := Obj.t (Obj.t Stats).

(** [timeLocationGroups[timeKey]], after the line that creates it. *)
Definition locsOf (groups : Groups) (timeKey : string) : Obj.t Stats :=
  match Obj.get_own groups timeKey with Some locs => locs | None => [] end.

(** The body of [dateFiltered.forEach].  A time key starts with a digit,
    so it is never a property of [Object.prototype]; a location may be.
    For such a location [timeLocationGroups[timeKey][d.location]] is the
    inherited, truthy value: no group is created, and the four [+=] land
    on that inherited object, not in [timeLocationGroups]. *)
Definition addReading (mode : AggregationMode) (groups : Groups) (d : SensorData)
  : completion Groups :=
  timeKey <- timeKeyOf mode (timestamp d) ;;
  let groups1 :=
    match Obj.get_own groups timeKey with
    | Some _ => groups
    | None => Obj.set groups timeKey []
    end in
  let locs := locsOf groups1 timeKey in
  match Obj.get_own locs (location d) with
  | Some locGroup =>
      Normal (Obj.set groups1 timeKey (Obj.set locs (location d) (addStats locGroup d)))
  | None =>
      if Obj.inherited (location d) then Normal groups1
      else Normal (Obj.set groups1 timeKey
                     (Obj.set locs (location d) (addStats emptyStats d)))
  end.

Definition displayDateOf (mode : AggregationMode) (timeKey : string) : completion string :=
  match mode with
  | weekly => s <- format (newDate timeKey) fmt_MM_dd ;; Normal (s ++ " (Week)")%string
  | daily => format (newDate timeKey) fmt_MM_dd
  | hourly => format (newDate timeKey) fmt_MM_dd_HH_mm
  end.

(** [Number((sum / stats.count).toFixed(2))] *)
Definition average (sum : float) (n : Z) : float :=
  Num.toFixed2 (sum / Num.of_Z n)%float.

Definition seriesOf (entry : string * Stats) : list (string * float) :=
  let (loc, stats) := entry in
  [ ((loc ++ "_moisture")%string, average (sum_moisture stats) (count stats));
    ((loc ++ "_ec")%string, average (sum_ec stats) (count stats));
    ((loc ++ "_temperature")%string, average (sum_temperature stats) (count stats)) ].

(** The callback of [Object.entries(timeLocationGroups).map]. *)
Definition flatten (mode : AggregationMode) (entry : string * Obj.t Stats)
  : completion ChartRow :=
  let (timeKey, locs) := entry in
  displayDate <- displayDateOf mode timeKey ;;
  Normal {| date := timeKey;
            displayDate := displayDate;
            series := flat_map seriesOf (Obj.entries locs) |}.

(** [rows.sort((a, b) => a.date.localeCompare(b.date))]: the sort is
    stable, which fixes its result. *)
Definition row_le (a b : ChartRow) : bool :=
  match Str.localeCompare (date a) (date b) with Gt => false | _ => true end.

Fixpoint insert_row (a : ChartRow) (l : list ChartRow) : list ChartRow :=
  match l with
  | [] => [a]
  | b :: l' => if row_le a b then a :: l else b :: insert_row a l'
  end.

Definition sort_rows (l : list ChartRow) : list ChartRow :=
  fold_right insert_row [] l.

Definition dateFiltered (st : AppState) : list SensorData :=
  filter (keep (newDate (startDate st)) (newDate (endDate st)) (selectedLocations st))
         (data st).

Definition filteredAndAggregatedData (st : AppState) : completion (list ChartRow) :=
  if (List.length (data st) =? 0)%nat
     || String.eqb (startDate st) EmptyString || String.eqb (endDate st) EmptyString
  then Normal []
  else
    let start := newDate (startDate st) in
    let end_ := newDate (endDate st) in
    let mode := aggregationMode start end_ in
    timeLocationGroups <- foldM (addReading mode) (dateFiltered st) [] ;;
    rows <- mapM (flatten mode) (Obj.entries timeLocationGroups) ;;
    Normal (sort_rows rows).

End App.

(* ================================================================== *)
(** ** Zones, sample readings and sample states                        *)
(* ================================================================== *)

Definition UTC : Z := 0.
(** Asia/Seoul: UTC+9, without daylight saving. *)
Definition KST : Z := 9 * Cal.msPerHour.
(** UTC+1. *)
Definition CET : Z := Cal.msPerHour.

(** A dataset in which every reading carries a valid timestamp. *)
Definition validData (l : list SensorData) : Prop :=
  Forall (fun d => isValid (timestamp d) = true) l.

Definition reading (tz : Z) (loc ts : string) (m : float) : SensorData :=
  {| serialNumber := "N/A"; location := loc; battery := PrimFloat.zero;
     timestamp := Date_parse tz ts;
     moisture := m; ec := PrimFloat.zero; temperature := PrimFloat.zero |}.

Definition raw_row (loc ts m : string) : RawSensorData :=
  {| raw_serialNumber := Some "SN-1"; raw_location := Some loc;
     raw_battery := Some "95"; raw_timestamp := Some ts;
     raw_moisture := Some m; raw_EC := Some "0.8";
     raw_temperature := Some "12.5" |}.

(** The end-to-end scenario: two readings at "A" on 2024-01-01, at 01:00
    and 02:00, and the range 2024-01-01 to 2024-01-01. *)
Definition e2e_state (tz : Z) : AppState :=
  {| data := [ reading tz "A" "2024-01-01T01:00" 10;
               reading tz "A" "2024-01-01T02:00" 20 ];
     startDate := "2024-01-01"; endDate := "2024-01-01";
     selectedLocations := ["A"] |}.

(** The same two readings as rows of an uploaded file. *)
Definition e2e_rows : list RawSensorData :=
  [ raw_row "A" "2024-01-01T01:00" "10"; raw_row "A" "2024-01-01T02:00" "20" ].

(** A range entered backwards, with a reading between its two dates. *)
Definition inverted_state : AppState :=
  {| data := [ reading KST "A" "2024-01-02T12:00" 10 ];
     startDate := "2024-01-03"; endDate := "2024-01-01";
     selectedLocations := [] |}.

(** A filter that names a location the data does not have. *)
Definition absent_filter_state : AppState :=
  {| data := [ reading KST "A" "2024-01-02T12:00" 10 ];
     startDate := "2024-01-01"; endDate := "2024-01-03";
     selectedLocations := ["B"] |}.

(** A reading on Sunday 2024-01-07 in a range of 62 days. *)
Definition sunday_state : AppState :=
  {| data := [ reading KST "A" "2024-01-07T12:00" 10 ];
     startDate := "2023-12-01"; endDate := "2024-02-01";
     selectedLocations := [] |}.

(** Three readings of one hour at one location: 10, 20, 30. *)
Definition mean_state : AppState :=
  {| data := [ reading KST "A" "2024-01-02T12:00" 10;
               reading KST "A" "2024-01-02T12:20" 20;
               reading KST "A" "2024-01-02T12:40" 30 ];
     startDate := "2024-01-01"; endDate := "2024-01-03";
     selectedLocations := [] |}.

(** Two finite readings, the field ["1e308"] each, in one hour at one
    location. *)
Definition huge : float := RefParse.parseFloat "1e308".

Definition overflow_state : AppState :=
  {| data := [ reading KST "A" "2024-01-02T12:00" huge;
               reading KST "A" "2024-01-02T12:20" huge ];
     startDate := "2024-01-01"; endDate := "2024-01-03";
     selectedLocations := [] |}.

(** The readings of [l] that fall under bucket key [key] at [loc]. *)
Definition groupOf (tz : Z) (mode : AggregationMode) (key loc : string)
  (l : list SensorData) : list SensorData :=
  filter (fun d =>
            match timeKeyOf tz mode (timestamp d) with
            | Normal k => String.eqb k key && String.eqb (location d) loc
            | Throw _ => false
            end) l.

(** The state with another location filter. *)
Definition withLocations (st : AppState) (sel : list string) : AppState :=
  {| data := data st; startDate := startDate st; endDate := endDate st;
     selectedLocations := sel |}.

(** What [forEach] has accumulated for a group after its readings [g]. *)
Definition statsOf (g : list SensorData) : Stats :=
  fold_left addStats g emptyStats.

Definition groupStats (g : list SensorData) : option Stats :=
  match g with [] => None | _ :: _ => Some (statsOf g) end.


(** [timeLocationGroups] after [forEach] has visited the readings [l]:
    keys are distinct, every visited reading has its bucket, and a
    location of a bucket holds the accumulated statistics of its group
    (none for a location that names a property of [Object.prototype]). *)
Definition grouped (tz : Z) (mode : AggregationMode) (l : list SensorData)
  (G : Groups) : Prop :=
  NoDup (map fst G)
  /\ (forall k locs, Obj.get_own G k = Some locs -> NoDup (map fst locs))
  /\ (forall d k, In d l -> timeKeyOf tz mode (timestamp d) = Normal k ->
        Obj.get_own G k <> None)
  /\ (forall k loc,
        Obj.get_own (locsOf G k) loc
        = if Obj.inherited loc then None
          else groupStats (groupOf tz mode k loc l)).

(** Non-decreasing bucket keys. *)
Definition date_le (a b : ChartRow) : Prop := String.leb (date a) (date b) = true.

(** Rows the sample states produce. *)
Definition inverted_row : ChartRow :=
  {| date := "2024-01-02 12:00"; displayDate := "01/02 12:00";
     series := [ ("A_moisture", 10%float); ("A_ec", PrimFloat.zero);
                 ("A_temperature", PrimFloat.zero) ] |}.

Definition sunday_row : ChartRow :=
  {| date := "2024-01-07"; displayDate := "01/07 (Week)";
     series := [ ("A_moisture", 10%float); ("A_ec", PrimFloat.zero);
                 ("A_temperature", PrimFloat.zero) ] |}.


Definition overflow_row : ChartRow :=
  {| date := "2024-01-02 12:00"; displayDate := "01/02 12:00";
     series := [ ("A_moisture", PrimFloat.infinity); ("A_ec", PrimFloat.zero);
                 ("A_temperature", PrimFloat.zero) ] |}.

(** Readings of two hours, listed latest first. *)
Definition two_hours_state : AppState :=
  {| data := [ reading KST "B" "2024-01-02T15:10" 30;
               reading KST "A" "2024-01-02T12:00" 10;
               reading KST "B" "2024-01-02T12:30" 20 ];
     startDate := "2024-01-01"; endDate := "2024-01-03";
     selectedLocations := [] |}.


(* ================================================================== *)
(** ** The rest of the component: handlers, selections, what is drawn  *)
(* ================================================================== *)

(** [MetricType]: ['moisture' | 'ec' | 'temperature']. *)
Module Metric.

Inductive t : Type := moisture | ec | temperature.

(** The string the type denotes, as it appears in a data key. *)
Definition key (m : t) : string :=
  match m with
  | moisture => "moisture"
  | ec => "ec"
  | temperature => "temperature"
  end.

Definition eqb (a b : t) : bool :=
  match a, b with
  | moisture, moisture | ec, ec | temperature, temperature => true
  | _, _ => false
  end.

(** [metricConfig[metric].label] *)
Definition label (m : t) : string :=
  match m with
  | moisture => "토양수분"
  | ec => "EC"
  | temperature => "지온"
  end.

(** [Object.keys(metricConfig)] *)
Definition keys : list t := [moisture; ec; temperature].

(** [selectedMetrics.includes(metric)] *)
Definition includes (l : list t) (m : t) : bool := existsb (eqb m) l.

End Metric.

(** [toggleLocation]:
    [prev.includes(loc) ? prev.filter(l => l !== loc) : [...prev, loc]] *)
Definition toggleLocation (loc : string) (prev : list string) : list string :=
  if includes prev loc
  then filter (fun l => negb (String.eqb l loc)) prev
  else prev ++ [loc].

(** [toggleMetric], the same on metrics. *)
Definition toggleMetric (metric : Metric.t) (prev : list Metric.t) : list Metric.t :=
  if Metric.includes prev metric
  then filter (fun m => negb (Metric.eqb m metric)) prev
  else prev ++ [metric].

(** [toggleAllLocations]: the new [selectedLocations]. *)
Definition toggleAllLocations (st : AppState) : list string :=
  if (List.length (selectedLocations st) =? List.length (locations (data st)))%nat
  then []
  else locations (data st).

(** [clearData], after [window.confirm] answered. *)
Definition clearDataConfirm (confirmed : bool) (st : AppState) : AppState :=
  if confirmed then clearData st else st.

(** What [Papa.parse] reports for a file: the rows to [complete], or a
    call of [error]. *)
Inductive PapaOutcome : Type :=
| Complete (rows : list RawSensorData)
| ParseError.

(** The chosen file: its size in bytes and what parsing it yields. *)
Record File : Type := {
  size    : Z;
  outcome : PapaOutcome
}.

(** [10 * 1024 * 1024] *)
Definition maxFileSize : Z := 10 * 1024 * 1024.

(** The whole change handler of the file input: no file, or a file over
    the limit, returns at once; a parse error only alerts. *)
Definition handleFileUploadEvent (tz : Z) (newDate : string -> Date)
  (parseFloat : string -> float) (st : AppState) (file : option File) : AppState :=
  match file with
  | None => st
  | Some f =>
      if maxFileSize <? size f then st
      else match outcome f with
           | Complete rows => handleFileUpload tz newDate parseFloat st rows
           | ParseError => st
           end
  end.

(** The state of the component: the data and filters, and the metrics to
    draw.  (The two busy flags only drive an overlay and a button.) *)
Record ViewState : Type := {
  app             : AppState;
  selectedMetrics : list Metric.t
}.

Definition initialView : ViewState :=
  {| app := initialState;
     selectedMetrics := [Metric.moisture; Metric.ec; Metric.temperature] |}.

Definition withApp (v : ViewState) (st : AppState) : ViewState :=
  {| app := st; selectedMetrics := selectedMetrics v |}.

(** What the user can do. *)
Inductive Event : Type :=
| ChooseFile (file : option File)
| ClearData (confirmed : bool)
| SetStartDate (value : string)
| SetEndDate (value : string)
| ToggleLocation (loc : string)
| ToggleAllLocations
| ToggleMetric (metric : Metric.t).

(** The file input is always there; the filters and the clear button are
    rendered once there is data. *)
Definition offered (v : ViewState) (ev : Event) : Prop :=
  match ev with
  | ChooseFile _ => True
  | ToggleLocation loc => In loc (locations (data (app v)))
  | _ => data (app v) <> []
  end.

Definition handle (tz : Z) (newDate : string -> Date) (parseFloat : string -> float)
  (v : ViewState) (ev : Event) : ViewState :=
  let st := app v in
  match ev with
  | ChooseFile file => withApp v (handleFileUploadEvent tz newDate parseFloat st file)
  | ClearData confirmed => withApp v (clearDataConfirm confirmed st)
  | SetStartDate value =>
      withApp v {| data := data st; startDate := value; endDate := endDate st;
                   selectedLocations := selectedLocations st |}
  | SetEndDate value =>
      withApp v {| data := data st; startDate := startDate st; endDate := value;
                   selectedLocations := selectedLocations st |}
  | ToggleLocation loc =>
      withApp v (withLocations st (toggleLocation loc (selectedLocations st)))
  | ToggleAllLocations => withApp v (withLocations st (toggleAllLocations st))
  | ToggleMetric metric =>
      {| app := st; selectedMetrics := toggleMetric metric (selectedMetrics v) |}
  end.

(** The states the component can be in. *)
Inductive reachable (tz : Z) (newDate : string -> Date) (parseFloat : string -> float)
  : ViewState -> Prop :=
| reach_init : reachable tz newDate parseFloat initialView
| reach_step (v : ViewState) (ev : Event) :
    reachable tz newDate parseFloat v -> offered v ev ->
    reachable tz newDate parseFloat (handle tz newDate parseFloat v ev).

(** What the handlers keep: valid timestamps, and a selection without
    repetition among the locations of the data. *)
Definition wellFormed (st : AppState) : Prop :=
  validData (data st)
  /\ NoDup (selectedLocations st)
  /\ incl (selectedLocations st) (locations (data st)).

(** *** The chart's lines *)

Record ChartLine : Type := {
  dataKey : string;
  name    : string;
  stroke  : string
}.

Definition palette : list string :=
  [ "#2563eb"; "#16a34a"; "#d97706"; "#dc2626"; "#7c3aed";
    "#db2777"; "#0891b2"; "#4f46e5"; "#059669"; "#ca8a04";
    "#e11d48"; "#9333ea"; "#c026d3"; "#0d9488"; "#2563eb" ].

(** [(locIdx * Object.keys(metricConfig).length + metricIdx) % palette.length] *)
Definition colorIdx (locIdx metricIdx : nat) : nat :=
  ((locIdx * List.length Metric.keys + metricIdx) mod List.length palette)%nat.

(** The elements of an array with their indices, as [map]'s callback
    receives them. *)
Definition indexed {A} (l : list A) : list (nat * A) :=
  combine (seq 0 (List.length l)) l.

Definition lineOf (locIdx : nat) (loc : string) (metricIdx : nat) (metric : Metric.t)
  : ChartLine :=
  {| dataKey := (loc ++ "_" ++ Metric.key metric)%string;
     name := (loc ++ " - " ++ Metric.label metric)%string;
     stroke := nth (colorIdx locIdx metricIdx) palette EmptyString |}.

(** The [Line] elements of the chart, in order:
    [locations.filter(l => selectedLocations.includes(l))], and for each
    the selected metrics ([null] for the others, which draws nothing). *)
Definition chartLines (v : ViewState) : list ChartLine :=
  flat_map
    (fun il : nat * string =>
       flat_map
         (fun im : nat * Metric.t =>
            if Metric.includes (selectedMetrics v) (snd im)
            then [lineOf (fst il) (snd il) (fst im) (snd im)]
            else [])
         (indexed Metric.keys))
    (indexed (filter (includes (selectedLocations (app v)))
                     (locations (data (app v))))).

(** *** The table of the first records *)

(** ['yyyy-MM-dd HH:mm'] *)
Definition fmt_yyyy_MM_dd_HH_mm : list FormatToken :=
  [Tyyyy; Lit "-"; TMM; Lit "-"; Tdd; Lit " "; THH; Lit ":"; Tmm].

Record PreviewRow : Type := {
  cell_time        : string;
  cell_location    : string;
  cell_moisture    : float;
  cell_ec          : float;
  cell_temperature : float;
  cell_battery     : float
}.

(** [data.slice(0, 10).map(row => ...)]; [format] raises on an invalid
    timestamp, and with it the render. *)
Definition previewRows (tz : Z) (st : AppState) : completion (list PreviewRow) :=
  mapM (fun row =>
          time <- format tz (timestamp row) fmt_yyyy_MM_dd_HH_mm ;;
          Normal {| cell_time := time; cell_location := location row;
                    cell_moisture := moisture row; cell_ec := ec row;
                    cell_temperature := temperature row;
                    cell_battery := battery row |})
       (firstn 10 (data st)).

(** Strictly increasing bucket keys. *)
Definition date_lt (a b : ChartRow) : Prop := String.ltb (date a) (date b) = true.

(** A file within the size limit holding the two rows, and the view after
    choosing it and then deselecting location "A". *)
Definition e2e_file : File := {| size := 2048; outcome := Complete e2e_rows |}.

Definition uploaded_view : ViewState :=
  handle KST (Date_parse KST) RefParse.parseFloat initialView
    (ChooseFile (Some e2e_file)).


(** A range whose start is no date. *)
Definition invalid_range_state : AppState :=
  {| data := [ reading KST "A" "2024-01-02T12:00" 10 ];
     startDate := "soon"; endDate := "2024-01-03";
     selectedLocations := [] |}.

(** A reading whose location names a property of [Object.prototype]. *)
Definition prototype_state : AppState :=
  {| data := [ reading KST "toString" "2024-01-02T12:00" 10 ];
     startDate := "2024-01-01"; endDate := "2024-01-03";
     selectedLocations := [] |}.

Definition prototype_row : ChartRow :=
  {| date := "2024-01-02 12:00"; displayDate := "01/02 12:00"; series := [] |}.

(** The readings of two hours with both locations selected and all
    metrics drawn. *)
Definition chart_view : ViewState :=
  {| app := withLocations two_hours_state ["A"; "B"];
     selectedMetrics := [Metric.moisture; Metric.ec; Metric.temperature] |}.

(* ================================================================== *)
(** ** Properties of the runtime model                                 *)
(* ================================================================== *)

Section ObjFacts.

Context {V : Type}.
Implicit Types (o : Obj.t V) (k : string) (v : V).

Lemma get_own_set_eq o k v : Obj.get_own (Obj.set o k v) k = Some v.
Proof.
  induction o as [| [k' v'] o IH]; cbn.
  - now rewrite String.eqb_refl.
  - destruct (String.eqb k k') eqn:E; cbn; now rewrite E.
Qed.

Lemma get_own_set_neq o k k' v :
  k' <> k -> Obj.get_own (Obj.set o k v) k' = Obj.get_own o k'.
Proof.
  intros Hne. induction o as [| [k0 v0] o IH]; cbn.
  - destruct (String.eqb_spec k' k); congruence.
  - destruct (String.eqb_spec k k0) as [-> | Hk]; cbn.
    + destruct (String.eqb_spec k' k0); congruence.
    + destruct (String.eqb_spec k' k0); auto.
Qed.

Lemma get_own_In o k v : Obj.get_own o k = Some v -> In (k, v) o.
Proof.
  induction o as [| [k' v'] o IH]; cbn; [discriminate|].
  destruct (String.eqb_spec k k') as [-> | Hk]; intros H.
  - left. congruence.
  - right. auto.
Qed.

Lemma get_own_None o k : Obj.get_own o k = None -> ~ In k (map fst o).
Proof.
  induction o as [| [k' v'] o IH]; cbn; [tauto|].
  destruct (String.eqb_spec k k') as [-> | Hk]; [discriminate|].
  intros H [E | Hin]; [congruence | now apply IH].
Qed.

Lemma In_get_own o k v :
  NoDup (map fst o) -> In (k, v) o -> Obj.get_own o k = Some v.
Proof.
  induction o as [| [k' v'] o IH]; cbn; [tauto|].
  intros Hnd [E | Hin]; inversion Hnd as [| ? ? Hnotin Hnd']; subst.
  - inversion E; subst. now rewrite String.eqb_refl.
  - destruct (String.eqb_spec k k') as [-> | Hk]; [| now apply IH].
    exfalso. apply Hnotin. now apply (in_map fst) in Hin.
Qed.

Lemma In_keys_set o k v x :
  In x (map fst (Obj.set o k v)) <-> x = k \/ In x (map fst o).
Proof.
  induction o as [| [k' v'] o IH]; cbn.
  - intuition.
  - destruct (String.eqb_spec k k') as [-> | Hk]; cbn; [intuition|].
    rewrite IH. intuition.
Qed.

Lemma NoDup_set o k v : NoDup (map fst o) -> NoDup (map fst (Obj.set o k v)).
Proof.
  induction o as [| [k' v'] o IH]; cbn; intros Hnd.
  - repeat constructor. tauto.
  - inversion Hnd as [| ? ? Hnotin Hnd']; subst.
    destruct (String.eqb_spec k k') as [-> | Hk]; cbn; [now constructor|].
    constructor; [| now apply IH].
    rewrite In_keys_set. intros [E | Hin]; [congruence | tauto].
Qed.

Lemma In_insert_index (a x : string * V) (l : Obj.t V) :
  In x (Obj.insert_index a l) <-> x = a \/ In x l.
Proof.
  induction l as [| b l IH]; cbn; [intuition|].
  destruct (_ <=? _); cbn; [intuition|]. rewrite IH. intuition.
Qed.

Lemma entries_In o (x : string * V) : In x (Obj.entries o) <-> In x o.
Proof.
  unfold Obj.entries. rewrite in_app_iff.
  assert (H : forall l, In x (fold_right Obj.insert_index [] l) <-> In x l).
  { induction l as [| a l IH]; cbn; [tauto|].
    rewrite In_insert_index, IH. intuition. }
  rewrite H, !filter_In.
  destruct (Obj.is_array_index (fst x)); cbn; intuition discriminate.
Qed.

End ObjFacts.

Lemma foldM_app {A S} (f : S -> A -> completion S) (l1 l2 : list A) (s : S) :
  foldM f (l1 ++ l2) s = (s' <- foldM f l1 s ;; foldM f l2 s').
Proof.
  revert s. induction l1 as [| a l1 IH]; intros s; cbn; [reflexivity|].
  destruct (f s a); cbn; auto.
Qed.

Lemma mapM_In {A B} (f : A -> completion B) (l : list A) (bs : list B) :
  mapM f l = Normal bs ->
  forall b, In b bs <-> exists a, In a l /\ f a = Normal b.
Proof.
  revert bs. induction l as [| a l IH]; cbn; intros bs H b.
  - inversion H; subst. cbn. split; [tauto | intros (? & [] & _)].
  - destruct (f a) as [b0 |] eqn:Ea; cbn in H; [| discriminate].
    destruct (mapM f l) as [bs0 |]; cbn in H; [| discriminate].
    inversion H; subst. cbn. rewrite (IH bs0 eq_refl b). split.
    + intros [<- | (a' & Hin & E)]; eauto.
    + intros (a' & [<- | Hin] & E); [left; congruence | eauto].
Qed.

Lemma mapM_total {A B} (f : A -> completion B) (l : list A) :
  (forall a, In a l -> exists b, f a = Normal b) ->
  exists bs, mapM f l = Normal bs.
Proof.
  induction l as [| a l IH]; cbn; intros H; [eauto|].
  destruct (H a (or_introl eq_refl)) as [b ->].
  destruct IH as [bs ->]; [intros; apply H; auto|]. cbn. eauto.
Qed.

(** *** Order of strings *)

Lemma string_leb_iff (a b : string) :
  String.leb a b = true <-> OrderedTypeEx.String_as_OT.lt a b \/ a = b.
Proof.
  unfold String.leb.
  rewrite <- OrderedTypeEx.String_as_OT.cmp_lt, <- OrderedTypeEx.String_as_OT.cmp_eq.
  unfold OrderedTypeEx.String_as_OT.cmp.
  destruct (String.compare a b); intuition discriminate.
Qed.

Lemma string_leb_trans (a b c : string) :
  String.leb a b = true -> String.leb b c = true -> String.leb a c = true.
Proof.
  rewrite !string_leb_iff.
  intros [H1 | ->] [H2 | ->]; auto.
  left. eapply OrderedTypeEx.String_as_OT.lt_trans; eauto.
Qed.

Lemma row_le_date_le (a b : ChartRow) : row_le a b = true <-> date_le a b.
Proof.
  unfold row_le, date_le, Str.localeCompare, String.leb.
  destruct (String.compare _ _); intuition discriminate.
Qed.

Lemma row_le_total (a b : ChartRow) : row_le a b = false -> date_le b a.
Proof.
  intros H. destruct (String.leb_total (date a) (date b)) as [H1 | H1]; [| exact H1].
  apply row_le_date_le in H1. congruence.
Qed.

Lemma In_insert_row (a x : ChartRow) (l : list ChartRow) :
  In x (insert_row a l) <-> x = a \/ In x l.
Proof.
  induction l as [| b l IH]; cbn; [intuition|].
  destruct (row_le a b); cbn; [intuition|]. rewrite IH. intuition.
Qed.

Lemma In_sort_rows (x : ChartRow) (l : list ChartRow) :
  In x (sort_rows l) <-> In x l.
Proof.
  induction l as [| a l IH]; cbn; [tauto|].
  rewrite In_insert_row, IH. intuition.
Qed.

Lemma insert_row_sorted (a : ChartRow) (l : list ChartRow) :
  StronglySorted date_le l -> StronglySorted date_le (insert_row a l).
Proof.
  induction 1 as [| b l Hs IH Hall]; cbn.
  - repeat constructor.
  - destruct (row_le a b) eqn:E.
    + apply row_le_date_le in E. constructor; [now constructor|].
      constructor; [exact E|].
      eapply Forall_impl; [| exact Hall].
      intros c Hc. unfold date_le in *. eapply string_leb_trans; eauto.
    + apply row_le_total in E. constructor; [exact IH|].
      apply Forall_forall. intros c Hc. apply In_insert_row in Hc.
      destruct Hc as [-> | Hc]; [exact E|].
      rewrite Forall_forall in Hall. auto.
Qed.

Lemma sort_rows_sorted (l : list ChartRow) : StronglySorted date_le (sort_rows l).
Proof.
  induction l as [| a l IH]; cbn; [constructor | now apply insert_row_sorted].
Qed.

(* ================================================================== *)
(** ** Properties                                                      *)
(* ================================================================== *)

Section Facts.

Variable tz : Z.
Variable newDate : string -> Date.
Variable parseFloat : string -> float.

(** *** Normalisation *)



Lemma parsedData_valid (rows : list RawSensorData) :
  validData (parsedData newDate parseFloat rows).
Proof.
  unfold validData, parsedData. apply Forall_forall.
  intros d Hd. apply filter_In in Hd. tauto.
Qed.





(** *** Granularity *)

Lemma floor_day_bounds (x : Z) :
  86400000 * (x / 86400000) <= x < 86400000 * (x / 86400000) + 86400000.
Proof.
  pose proof (Z.div_mod x 86400000 ltac:(lia)).
  pose proof (Z.mod_pos_bound x 86400000 ltac:(lia)). lia.
Qed.

Lemma quot_day_bounds (x : Z) :
  (0 <= x -> 86400000 * (x ÷ 86400000) <= x < 86400000 * (x ÷ 86400000) + 86400000)
  /\ (x <= 0 -> 86400000 * (x ÷ 86400000) - 86400000 < x <= 86400000 * (x ÷ 86400000)).
Proof.
  pose proof (Z.quot_rem' x 86400000) as Hq.
  split; intros Hx.
  - pose proof (Z.rem_bound_pos x 86400000 Hx ltac:(lia)). lia.
  - pose proof (Z.rem_bound_pos_neg x 86400000 ltac:(lia) Hx). lia.
Qed.

Lemma differenceInDays_quot (e s : Z) :
  differenceInDays tz (TimeValue e) (TimeValue s)
  = Some (Z.quot (e - s) Cal.msPerDay).
Proof.
  unfold differenceInDays, compareLocalAsc, differenceInCalendarDays,
    localDay, localTime, Cal.msPerDay.
  f_equal.
  pose proof (floor_day_bounds (e + tz)) as Ha.
  pose proof (floor_day_bounds (s + tz)) as Hb.
  destruct (quot_day_bounds (e - s)) as [Hq1 Hq2].
  set (a := (e + tz) / 86400000) in *.
  set (b := (s + tz) / 86400000) in *.
  set (q := (e - s) ÷ 86400000) in *.
  destruct (Z.sgn_spec (e - s)) as [[Hs ->] | [[Hs ->] | [Hs ->]]].
  - specialize (Hq1 ltac:(lia)). clear Hq2.
    match goal with |- context [Z.sgn ?x =? _] =>
      destruct (Z.sgn_spec x) as [[H1 ->] | [[H1 ->] | [H1 ->]]] end;
    cbn [Z.eqb Z.opp Pos.eqb]; lia.
  - specialize (Hq1 ltac:(lia)). rewrite Z.mul_0_l. lia.
  - specialize (Hq2 ltac:(lia)). clear Hq1.
    match goal with |- context [Z.sgn ?x =? _] =>
      destruct (Z.sgn_spec x) as [[H1 ->] | [[H1 ->] | [H1 ->]]] end;
    cbn [Z.eqb Z.opp Pos.eqb]; lia.
Qed.

(** C2 (granularity boundary).  For every pair of valid range bounds the
    granularity depends on the whole-day span [D] alone, the difference of
    the time values in days truncated towards zero: weekly iff [D > 31],
    daily iff [7 < D <= 31], hourly iff [D <= 7].  Ranges of exactly 7, 8,
    31 and 32 days are hourly, daily, daily and weekly. *)
Theorem granularity_by_day_span (s e : Z) :
  let D := Z.quot (e - s) Cal.msPerDay in
  (aggregationMode tz (TimeValue s) (TimeValue e) = weekly <-> 31 < D)
  /\ (aggregationMode tz (TimeValue s) (TimeValue e) = daily <-> 7 < D <= 31)
  /\ (aggregationMode tz (TimeValue s) (TimeValue e) = hourly <-> D <= 7)
  /\ aggregationMode tz (TimeValue s) (TimeValue (s + 7 * Cal.msPerDay)) = hourly
  /\ aggregationMode tz (TimeValue s) (TimeValue (s + 8 * Cal.msPerDay)) = daily
  /\ aggregationMode tz (TimeValue s) (TimeValue (s + 31 * Cal.msPerDay)) = daily
  /\ aggregationMode tz (TimeValue s) (TimeValue (s + 32 * Cal.msPerDay)) = weekly.
Proof.
  intros D. unfold aggregationMode. rewrite !differenceInDays_quot.
  fold D. unfold modeOfDiff.
  repeat match goal with
  | |- context [Z.quot (s + ?k * Cal.msPerDay - s) Cal.msPerDay] =>
      replace (Z.quot (s + k * Cal.msPerDay - s) Cal.msPerDay) with k
        by (replace (s + k * Cal.msPerDay - s) with (k * Cal.msPerDay) by lia;
            now rewrite Z.quot_mul)
  end.
  cbn [Z.ltb Z.compare Pos.compare Pos.compare_cont].
  destruct (Z.ltb_spec 31 D), (Z.ltb_spec 7 D);
    repeat split; intros; try discriminate; try lia; reflexivity.
Qed.


(** *** Location filter *)

Lemma uniq_from_covers (seen xs : list string) (x : string) :
  In x xs -> existsb (String.eqb x) seen = true \/ In x (uniq_from seen xs).
Proof.
  revert seen. induction xs as [| y xs IH]; cbn; [tauto|].
  intros seen [-> | Hin].
  - destruct (existsb (String.eqb x) seen) eqn:E; [now left | right; now left].
  - destruct (existsb (String.eqb y) seen) eqn:E.
    + now apply IH.
    + destruct (IH (y :: seen) Hin) as [H | H]; [| right; now right].
      cbn in H. apply orb_true_iff in H. destruct H as [H | H]; [| now left].
      apply String.eqb_eq in H. subst. right. now left.
Qed.

Lemma includes_In (l : list string) (x : string) : includes l x = true <-> In x l.
Proof.
  unfold includes. rewrite existsb_exists. split.
  - intros (y & Hin & E). apply String.eqb_eq in E. now subst.
  - intros Hin. exists x. now rewrite String.eqb_refl.
Qed.

Lemma includes_locations (l : list SensorData) (d : SensorData) :
  In d l -> includes (locations l) (location d) = true.
Proof.
  intros Hin. apply includes_In. unfold locations, uniq.
  destruct (uniq_from_covers [] (map location l) (location d)) as [H | H];
    [now apply in_map | discriminate | exact H].
Qed.

(** A filter that names the location of every reading selects what the
    empty filter selects. *)
Lemma dateFiltered_covering (st : AppState) (sel : list string) :
  (forall d, In d (data st) -> includes sel (location d) = true) ->
  dateFiltered newDate (withLocations st sel)
  = dateFiltered newDate (withLocations st []).
Proof.
  intros Hcov. unfold dateFiltered, withLocations; cbn.
  apply filter_ext_in. intros d Hd. unfold keep.
  rewrite (Hcov d Hd). cbn. now rewrite orb_true_r.
Qed.

(** C5 (filter identity).  The empty location filter gives the output of
    the filter that lists every distinct location of the dataset. *)
Theorem empty_filter_selects_all (st : AppState) :
  filteredAndAggregatedData tz newDate (withLocations st [])
  = filteredAndAggregatedData tz newDate (withLocations st (locations (data st))).
Proof.
  unfold filteredAndAggregatedData.
  rewrite (dateFiltered_covering st (locations (data st)))
    by (intros d Hd; now apply includes_locations).
  reflexivity.
Qed.

(** *** Grouping *)

Lemma statsOf_snoc (g : list SensorData) (d : SensorData) :
  statsOf (g ++ [d]) = addStats (statsOf g) d.
Proof. unfold statsOf. now rewrite fold_left_app. Qed.

Lemma groupStats_snoc (g : list SensorData) (d : SensorData) :
  groupStats (g ++ [d])
  = Some (addStats (match groupStats g with Some s => s | None => emptyStats end) d).
Proof.
  destruct g as [| a g]; [reflexivity|].
  change ((a :: g) ++ [d]) with (a :: (g ++ [d])). unfold groupStats.
  change (a :: (g ++ [d])) with ((a :: g) ++ [d]). now rewrite statsOf_snoc.
Qed.

Lemma fold_addStats (g : list SensorData) (s : Stats) :
  count (fold_left addStats g s) = count s + Z.of_nat (List.length g)
  /\ sum_moisture (fold_left addStats g s)
     = fold_left (fun acc v => (acc + v)%float) (map moisture g) (sum_moisture s)
  /\ sum_ec (fold_left addStats g s)
     = fold_left (fun acc v => (acc + v)%float) (map ec g) (sum_ec s)
  /\ sum_temperature (fold_left addStats g s)
     = fold_left (fun acc v => (acc + v)%float) (map temperature g) (sum_temperature s).
Proof.
  revert s. induction g as [| d g IH]; intros s.
  - cbn. repeat split. lia.
  - cbn [fold_left map List.length]. destruct (IH (addStats s d)) as (Hc & Hm & He & Ht).
    rewrite Hc, Hm, He, Ht. cbn. repeat split. lia.
Qed.

Lemma groupOf_snoc (mode : AggregationMode) (k k0 loc : string)
  (l : list SensorData) (d : SensorData) :
  timeKeyOf tz mode (timestamp d) = Normal k0 ->
  groupOf tz mode k loc (l ++ [d])
  = groupOf tz mode k loc l
    ++ (if String.eqb k0 k && String.eqb (location d) loc then [d] else []).
Proof.
  intros Hk. unfold groupOf. rewrite filter_app. cbn. now rewrite Hk.
Qed.

Lemma grouped_nil (mode : AggregationMode) : grouped tz mode [] [].
Proof.
  unfold grouped. split; [constructor|]. split; [discriminate|].
  split; [intros d k []|].
  intros k loc. cbn. now destruct (Obj.inherited loc).
Qed.

Lemma locsOf_set_eq (G : Groups) (k : string) (locs : Obj.t Stats) :
  locsOf (Obj.set G k locs) k = locs.
Proof. unfold locsOf. now rewrite get_own_set_eq. Qed.

Lemma locsOf_set_neq (G : Groups) (k k' : string) (locs : Obj.t Stats) :
  k' <> k -> locsOf (Obj.set G k locs) k' = locsOf G k'.
Proof. intros H. unfold locsOf. now rewrite get_own_set_neq. Qed.

(** One step of [forEach] keeps the grouping. *)
Lemma addReading_grouped (mode : AggregationMode) (l : list SensorData)
  (G G' : Groups) (d : SensorData) :
  grouped tz mode l G ->
  addReading tz mode G d = Normal G' ->
  grouped tz mode (l ++ [d]) G'.
Proof.
  intros (Hnd & Hlocs & Hbucket & Hstats) Hstep.
  unfold addReading in Hstep.
  destruct (timeKeyOf tz mode (timestamp d)) as [k0 |] eqn:Hk; [| discriminate].
  cbn [bind] in Hstep.
  set (groups1 := match Obj.get_own G k0 with
                  | Some _ => G | None => Obj.set G k0 [] end) in Hstep.
  assert (H1nd : NoDup (map fst groups1)).
  { unfold groups1. destruct (Obj.get_own G k0); [exact Hnd | now apply NoDup_set]. }
  assert (H1locs : forall k, locsOf groups1 k = locsOf G k).
  { intros k. unfold groups1. destruct (Obj.get_own G k0) eqn:E; [reflexivity|].
    destruct (String.eqb_spec k k0) as [-> | Hne].
    - rewrite locsOf_set_eq. unfold locsOf. now rewrite E.
    - now apply locsOf_set_neq. }
  assert (H1some : forall k, k = k0 \/ Obj.get_own G k <> None ->
                             Obj.get_own groups1 k <> None).
  { intros k Hcase. unfold groups1. destruct (Obj.get_own G k0) eqn:E.
    - destruct Hcase as [-> | H]; [congruence | exact H].
    - destruct (String.eqb_spec k k0) as [-> | Hne].
      + rewrite get_own_set_eq. discriminate.
      + rewrite get_own_set_neq by exact Hne. destruct Hcase; [contradiction | assumption]. }
  assert (H1nodup : forall k locs, Obj.get_own groups1 k = Some locs ->
                                   NoDup (map fst locs)).
  { intros k locs. unfold groups1. destruct (Obj.get_own G k0) eqn:E; [apply Hlocs|].
    destruct (String.eqb_spec k k0) as [-> | Hne].
    - rewrite get_own_set_eq. intros H; inversion H; constructor.
    - rewrite get_own_set_neq by exact Hne. apply Hlocs. }
  assert (Hlocs0 : NoDup (map fst (locsOf groups1 k0))).
  { unfold locsOf. destruct (Obj.get_own groups1 k0) eqn:E; [| constructor].
    eapply H1nodup; eauto. }
  rewrite H1locs in Hstep, Hlocs0.
  clearbody groups1.
  (* the three outcomes share this shape *)
  assert (Hupd : forall S',
    (Obj.get_own (locsOf G k0) (location d) = Some S' -> False) \/ True ->
    forall s',
    (if Obj.inherited (location d) then None
     else groupStats (groupOf tz mode k0 (location d) (l ++ [d]))) = Some s' ->
    grouped tz mode (l ++ [d])
      (Obj.set groups1 k0 (Obj.set (locsOf G k0) (location d) s'))).
  { intros _ _ s' Hs'. repeat split.
    - now apply NoDup_set.
    - intros k locs. destruct (String.eqb_spec k k0) as [-> | Hne].
      + rewrite get_own_set_eq. intros H; inversion H; subst. now apply NoDup_set.
      + rewrite get_own_set_neq by exact Hne. apply H1nodup.
    - intros d' k Hin Hk'. destruct (String.eqb_spec k k0) as [-> | Hne].
      + rewrite get_own_set_eq. discriminate.
      + rewrite get_own_set_neq by exact Hne. apply H1some. right.
        apply in_app_iff in Hin. destruct Hin as [Hin | [<- | []]].
        * eapply Hbucket; eauto.
        * congruence.
    - intros k loc. destruct (String.eqb_spec k k0) as [-> | Hne].
      + rewrite locsOf_set_eq.
        destruct (String.eqb_spec loc (location d)) as [-> | Hloc].
        * now rewrite get_own_set_eq, Hs'.
        * rewrite get_own_set_neq by exact Hloc. rewrite Hstats.
          rewrite (groupOf_snoc mode k0 k0 loc l d Hk).
          destruct (String.eqb_spec (location d) loc) as [E | _]; [congruence|].
          now rewrite andb_false_r, app_nil_r.
      + rewrite locsOf_set_neq by exact Hne. rewrite H1locs, Hstats.
        rewrite (groupOf_snoc mode k k0 loc l d Hk).
        destruct (String.eqb_spec k0 k) as [E | _]; [congruence|].
        now rewrite app_nil_r. }
  pose proof (Hstats k0 (location d)) as Hcur.
  rewrite (groupOf_snoc mode k0 k0 (location d) l d Hk), !String.eqb_refl in Hupd.
  cbn [andb] in Hupd.
  destruct (Obj.get_own (locsOf G k0) (location d)) as [locGroup |] eqn:Eloc.
  - inversion Hstep; subst G'. apply (Hupd locGroup); [now right|].
    destruct (Obj.inherited (location d)); [discriminate|].
    rewrite groupStats_snoc, <- Hcur. reflexivity.
  - destruct (Obj.inherited (location d)) eqn:Einh; inversion Hstep; subst G'.
    + (* a prototype property: only the bucket exists *)
      repeat split.
      * exact H1nd.
      * exact H1nodup.
      * intros d' k Hin Hk'. apply H1some.
        apply in_app_iff in Hin. destruct Hin as [Hin | [<- | []]].
        -- right. eapply Hbucket; eauto.
        -- left. congruence.
      * intros k loc. rewrite H1locs, Hstats.
        destruct (Obj.inherited loc) eqn:El; [reflexivity|].
        rewrite (groupOf_snoc mode k k0 loc l d Hk).
        destruct (String.eqb_spec (location d) loc) as [E | _];
          [congruence | now rewrite andb_false_r, app_nil_r].
    + apply (Hupd emptyStats); [now right|].
      rewrite groupStats_snoc, <- Hcur. reflexivity.
Qed.

Lemma foldM_grouped (mode : AggregationMode) (l' l : list SensorData) (G G' : Groups) :
  grouped tz mode l G ->
  foldM (addReading tz mode) l' G = Normal G' ->
  grouped tz mode (l ++ l') G'.
Proof.
  revert l G. induction l' as [| d l' IH]; intros l G HG Hrun; cbn in Hrun.
  - inversion Hrun; subst. now rewrite app_nil_r.
  - destruct (addReading tz mode G d) as [G1 |] eqn:E; [| discriminate].
    cbn in Hrun. replace (l ++ d :: l') with ((l ++ [d]) ++ l')
      by now rewrite <- app_assoc.
    eapply IH; [| exact Hrun]. eapply addReading_grouped; eauto.
Qed.


(** *** The memo as a whole *)

Lemma mapM_defined {A B} (f : A -> completion B) (l : list A) (bs : list B) (a : A) :
  mapM f l = Normal bs -> In a l -> exists b, f a = Normal b /\ In b bs.
Proof.
  intros H Hin. destruct (f a) as [b |] eqn:E.
  - exists b. split; [reflexivity|]. apply (mapM_In f l bs H). eauto.
  - exfalso. revert bs H. induction l as [| a' l IH]; [destruct Hin|].
    intros bs H. cbn in H. destruct Hin as [-> | Hin].
    + now rewrite E in H.
    + destruct (f a'); cbn in H; [| discriminate].
      destruct (mapM f l); cbn in H; [| discriminate]. eapply IH; eauto.
Qed.

(** Either the memo returned early, or it grouped the filtered readings,
    flattened every bucket and sorted the rows. *)
Lemma aggregate_cases (st : AppState) (rows : list ChartRow) :
  filteredAndAggregatedData tz newDate st = Normal rows ->
  let mode := aggregationMode tz (newDate (startDate st)) (newDate (endDate st)) in
  (rows = [] /\ (data st = [] \/ startDate st = EmptyString \/ endDate st = EmptyString))
  \/ (startDate st <> EmptyString /\ endDate st <> EmptyString
      /\ exists G rows0,
           foldM (addReading tz mode) (dateFiltered newDate st) [] = Normal G
           /\ grouped tz mode (dateFiltered newDate st) G
           /\ mapM (flatten tz newDate mode) (Obj.entries G) = Normal rows0
           /\ rows = sort_rows rows0).
Proof.
  intros Hrun mode. unfold filteredAndAggregatedData in Hrun. fold mode in Hrun.
  destruct (data st) as [| d0 ds] eqn:Edata.
  { cbn in Hrun. inversion Hrun. left. auto. }
  cbn [List.length Nat.eqb orb] in Hrun.
  destruct (String.eqb_spec (startDate st) EmptyString) as [Es | Es].
  { cbn in Hrun. inversion Hrun. left. auto. }
  destruct (String.eqb_spec (endDate st) EmptyString) as [Ee | Ee].
  { cbn in Hrun. inversion Hrun. left. auto. }
  cbn [orb] in Hrun. right. split; [exact Es|]. split; [exact Ee|].
  destruct (foldM (addReading tz mode) (dateFiltered newDate st) []) as [G |] eqn:EG;
    [| discriminate].
  cbn [bind] in Hrun.
  destruct (mapM (flatten tz newDate mode) (Obj.entries G)) as [rows0 |] eqn:ER;
    [| discriminate].
  cbn [bind] in Hrun. inversion Hrun; subst.
  exists G, rows0. split; [reflexivity|]. split; [| split; [exact ER | reflexivity]].
  apply (foldM_grouped mode (dateFiltered newDate st) [] [] G (grouped_nil mode) EG).
Qed.

(** C9 (ordering).  Whatever the input, the rows the memo returns are in
    non-decreasing order of their bucket keys, compared as strings. *)
Theorem output_sorted_by_bucket_key (st : AppState) (rows : list ChartRow)
  (Hrun : filteredAndAggregatedData tz newDate st = Normal rows) :
  StronglySorted date_le rows.
Proof.
  destruct (aggregate_cases st rows Hrun) as [[-> _] | (_ & _ & G & rows0 & _ & _ & _ & ->)].
  - constructor.
  - apply sort_rows_sorted.
Qed.

Lemma addReading_other_keys (mode : AggregationMode) (G G1 : Groups)
  (d : SensorData) (k0 k : string) :
  addReading tz mode G d = Normal G1 ->
  timeKeyOf tz mode (timestamp d) = Normal k0 ->
  k <> k0 ->
  Obj.get_own G1 k = Obj.get_own G k.
Proof.
  intros Hstep Hk0 Hne. unfold addReading in Hstep. rewrite Hk0 in Hstep.
  cbn [bind] in Hstep.
  set (groups1 := match Obj.get_own G k0 with
                  | Some _ => G | None => Obj.set G k0 [] end) in Hstep.
  assert (Hg1 : Obj.get_own groups1 k = Obj.get_own G k).
  { unfold groups1. destruct (Obj.get_own G k0); [reflexivity|].
    now apply get_own_set_neq. }
  clearbody groups1.
  destruct (Obj.get_own (locsOf groups1 k0) (location d));
    [| destruct (Obj.inherited (location d))];
    inversion Hstep; subst G1; rewrite ?get_own_set_neq by exact Hne; exact Hg1.
Qed.

Lemma format_valid (t : Z) (fmt : list FormatToken) :
  exists s, format tz (TimeValue t) fmt = Normal s.
Proof. unfold format. eauto. Qed.

Lemma timeKeyOf_valid (mode : AggregationMode) (t : Z) :
  exists k, timeKeyOf tz mode (TimeValue t) = Normal k.
Proof.
  destruct mode; unfold timeKeyOf, startOfWeek, startOfWeekAt, startOfDay, startOfHour;
    apply format_valid.
Qed.

Lemma displayDateOf_valid (mode : AggregationMode) (k : string) :
  isValid (newDate k) = true ->
  exists s, displayDateOf tz newDate mode k = Normal s.
Proof.
  intros H. unfold displayDateOf. destruct (newDate k) as [t |]; [| discriminate].
  destruct mode.
  - destruct (format_valid t fmt_MM_dd) as [s ->]. cbn [bind]. eauto.
  - apply format_valid.
  - apply format_valid.
Qed.

(** The memo returns, without raising, as soon as the engine's [Date]
    constructor reads back the bucket keys it is given. *)
Lemma aggregate_returns (st : AppState) :
  (forall d k, In d (dateFiltered newDate st) ->
     timeKeyOf tz (aggregationMode tz (newDate (startDate st)) (newDate (endDate st)))
       (timestamp d) = Normal k ->
     isValid (newDate k) = true) ->
  exists rows, filteredAndAggregatedData tz newDate st = Normal rows.
Proof.
  intros Hkeys. unfold filteredAndAggregatedData.
  destruct (_ || _ || _); [eauto|].
  set (mode := aggregationMode tz _ _) in *.
  assert (Hfold : forall l l0 G,
            (forall d, In d l -> In d (dateFiltered newDate st)) ->
            grouped tz mode l0 G ->
            (forall k, Obj.get_own G k <> None -> isValid (newDate k) = true) ->
            exists G', foldM (addReading tz mode) l G = Normal G'
                       /\ forall k, Obj.get_own G' k <> None -> isValid (newDate k) = true).
  { induction l as [| d l IH]; intros l0 G Hsub HG Hval; cbn; [eauto|].
    assert (Hd : In d (dateFiltered newDate st)) by (apply Hsub; now left).
    assert (Hts : exists t, timestamp d = TimeValue t).
    { unfold dateFiltered in Hd. apply filter_In in Hd. destruct Hd as [_ Hd].
      unfold keep in Hd. apply andb_true_iff in Hd. destruct Hd as [Hd _].
      unfold isWithinInterval in Hd. destruct (timestamp d); [eauto | discriminate]. }
    destruct Hts as [t Ht].
    assert (Hkey : exists k0, timeKeyOf tz mode (timestamp d) = Normal k0).
    { rewrite Ht. apply timeKeyOf_valid. }
    destruct Hkey as [k0 Hk0].
    assert (Hstep : exists G1, addReading tz mode G d = Normal G1).
    { unfold addReading. rewrite Hk0. cbn [bind].
      destruct (Obj.get_own (locsOf _ k0) (location d)); [eauto|].
      destruct (Obj.inherited (location d)); eauto. }
    destruct Hstep as [G1 HG1]. rewrite HG1. cbn [bind].
    apply (IH (l0 ++ [d]) G1).
    - intros d' Hd'. apply Hsub. now right.
    - eapply addReading_grouped; eauto.
    - intros k Hk. destruct (String.eqb_spec k k0) as [-> | Hne].
      + eapply Hkeys; eauto.
      + apply Hval. now rewrite <- (addReading_other_keys mode G G1 d k0 k HG1 Hk0 Hne). }
  destruct (Hfold (dateFiltered newDate st) [] [] (fun d H => H) (grouped_nil mode))
    as (G & -> & HvalG); [intros k Hk; now contradiction Hk|].
  cbn [bind].
  destruct (mapM_total (flatten tz newDate mode) (Obj.entries G)) as [rows0 ->];
    [| cbn; eauto].
  intros [k locs] Hin. apply (proj1 (entries_In _ _)) in Hin.
  assert (Hk : Obj.get_own G k <> None).
  { intros Hnone. apply get_own_None in Hnone. apply Hnone.
    now apply (in_map fst) in Hin. }
  specialize (HvalG k Hk). unfold flatten.
  destruct (displayDateOf_valid mode k HvalG) as [dd ->]. cbn [bind]. eauto.
Qed.


Lemma flatten_row (mode : AggregationMode) (k : string) (locs : Obj.t Stats) (r : ChartRow) :
  flatten tz newDate mode (k, locs) = Normal r ->
  date r = k /\ series r = flat_map seriesOf (Obj.entries locs).
Proof.
  unfold flatten. destruct (displayDateOf tz newDate mode k); cbn; [| discriminate].
  intros H; inversion H; subst. auto.
Qed.

(** A location listed in a bucket stands for a non-empty group. *)
Lemma group_lookup (mode : AggregationMode) (l : list SensorData) (G : Groups)
  (k loc : string) (locs : Obj.t Stats) (stats : Stats) :
  grouped tz mode l G ->
  In (k, locs) (Obj.entries G) ->
  In (loc, stats) (Obj.entries locs) ->
  Obj.inherited loc = false
  /\ groupOf tz mode k loc l <> []
  /\ stats = statsOf (groupOf tz mode k loc l).
Proof.
  intros (Hnd & Hlocs & _ & Hstats) Hk Hloc.
  apply (proj1 (entries_In _ _)) in Hk. apply (proj1 (entries_In _ _)) in Hloc.
  apply (In_get_own _ _ _ Hnd) in Hk.
  apply (In_get_own _ _ _ (Hlocs _ _ Hk)) in Hloc.
  specialize (Hstats k loc). unfold locsOf in Hstats. rewrite Hk, Hloc in Hstats.
  destruct (Obj.inherited loc); [discriminate|].
  destruct (groupOf tz mode k loc l) as [| a g]; [discriminate|].
  cbn in Hstats. inversion Hstats. repeat split; congruence.
Qed.



(** C10, as the code has it.  A group that reaches the pivot step holds
    at least one reading: its count is the number of filtered readings of
    its bucket and location, and is at least 1, so that [sum / count]
    never divides by zero. *)
Theorem pivot_group_count_positive
  (mode : AggregationMode) (l : list SensorData) (G : Groups)
  (k loc : string) (locs : Obj.t Stats) (stats : Stats)
  (Hrun : foldM (addReading tz mode) l [] = Normal G)
  (Hk : In (k, locs) (Obj.entries G))
  (Hloc : In (loc, stats) (Obj.entries locs)) :
  groupOf tz mode k loc l <> []
  /\ count stats = Z.of_nat (List.length (groupOf tz mode k loc l))
  /\ 1 <= count stats.
Proof.
  pose proof (foldM_grouped mode l [] [] G (grouped_nil mode) Hrun) as HG.
  cbn [app] in HG.
  destruct (group_lookup mode l G k loc locs stats HG Hk Hloc) as (_ & Hne & ->).
  split; [exact Hne|].
  destruct (fold_addStats (groupOf tz mode k loc l) emptyStats) as (Hc & _).
  unfold statsOf. rewrite Hc. cbn [count emptyStats].
  destruct (groupOf tz mode k loc l); [contradiction|]. cbn [List.length]. lia.
Qed.


(** *** Weeks *)

Lemma startOfWeek_sunday (t : Z) :
  exists w, startOfWeek tz (TimeValue t) = TimeValue w
    /\ getDay tz w = 0
    /\ localTime tz w mod Cal.msPerDay = 0
    /\ w <= t < w + 7 * Cal.msPerDay.
Proof.
  unfold startOfWeek, startOfWeekAt, getDay, Cal.week_day, localDay, localTime,
    Cal.msPerDay.
  set (L := (t + tz) / 86400000).
  set (day := (L + 4) mod 7).
  assert (Hday : 0 <= day < 7) by (apply Z.mod_pos_bound; lia).
  assert (Hlt : (day <? 0) = false) by (apply Z.ltb_ge; lia).
  rewrite Hlt. eexists. split; [reflexivity|].
  replace ((L - (0 + day - 0)) * 86400000 - tz + tz) with ((L - day) * 86400000) by lia.
  rewrite Z.div_mul, Z.mod_mul by lia.
  pose proof (floor_day_bounds (t + tz)) as Hb. fold L in Hb.
  repeat split; try lia.
  unfold day. Z.div_mod_to_equations. lia.
Qed.

(** C3, as the code has it.  With weekly granularity every filtered
    reading has a row whose bucket key is the [yyyy-MM-dd] of the start of
    its week, as [startOfWeek] gives it by default: local midnight of the
    Sunday on or before the reading. *)
Theorem weekly_bucket_is_sunday_week
  (st : AppState) (rows : list ChartRow) (d : SensorData)
  (Hstart : startDate st <> EmptyString) (Hend : endDate st <> EmptyString)
  (Hrun : filteredAndAggregatedData tz newDate st = Normal rows)
  (Hmode : aggregationMode tz (newDate (startDate st)) (newDate (endDate st)) = weekly)
  (Hd : In d (dateFiltered newDate st)) :
  exists t w key r,
    timestamp d = TimeValue t
    /\ startOfWeek tz (timestamp d) = TimeValue w
    /\ getDay tz w = 0
    /\ localTime tz w mod Cal.msPerDay = 0
    /\ w <= t < w + 7 * Cal.msPerDay
    /\ format tz (TimeValue w) fmt_yyyy_MM_dd = Normal key
    /\ In r rows /\ date r = key.
Proof.
  destruct (aggregate_cases st rows Hrun)
    as [[_ [E | [E | E]]] | (_ & _ & G & rows0 & _ & HG & Hmap & ->)];
    try contradiction.
  { unfold dateFiltered in Hd. rewrite E in Hd. destruct Hd. }
  rewrite Hmode in HG, Hmap.
  assert (Hts : exists t, timestamp d = TimeValue t).
  { unfold dateFiltered in Hd. apply filter_In in Hd. destruct Hd as [_ Hd].
    unfold keep in Hd. apply andb_true_iff in Hd. destruct Hd as [Hd _].
    unfold isWithinInterval in Hd. destruct (timestamp d); [eauto | discriminate]. }
  destruct Hts as [t Ht].
  destruct (startOfWeek_sunday t) as (w & Hw & Hsun & Hmid & Hrange).
  assert (Hkey : timeKeyOf tz weekly (timestamp d)
                 = format tz (TimeValue w) fmt_yyyy_MM_dd).
  { cbn [timeKeyOf]. now rewrite Ht, Hw. }
  destruct (format tz (TimeValue w) fmt_yyyy_MM_dd) as [key |] eqn:Ef;
    [| discriminate].
  destruct HG as (_ & _ & Hbucket & _).
  specialize (Hbucket d key Hd Hkey).
  destruct (Obj.get_own G key) as [locs |] eqn:Eg; [| contradiction].
  apply get_own_In in Eg. apply (proj2 (entries_In _ _)) in Eg.
  destruct (mapM_defined _ _ _ _ Hmap Eg) as (r & Hflat & Hr).
  apply flatten_row in Hflat. destruct Hflat as [Hdate _].
  exists t, w, key, r. rewrite Ht, Hw.
  repeat split; try assumption; try lia.
  now apply In_sort_rows.
Qed.

(** *** The interval test across date-fns versions *)

(** On a range in order the 2.x test answers as the 3.x/4.x one; on a
    range entered backwards it raised. *)
Lemma isWithinInterval_v2_cases (date : Date) (s e : Z) :
  (s <= e -> isWithinInterval_v2 date (TimeValue s) (TimeValue e)
             = Normal (isWithinInterval date (TimeValue s) (TimeValue e)))
  /\ (e < s -> isWithinInterval_v2 date (TimeValue s) (TimeValue e)
               = Throw (RangeError "Invalid interval")).
Proof.
  unfold isWithinInterval_v2, isWithinInterval. split; intros H.
  - destruct (Z.leb_spec s e); [| lia].
    destruct (Z.ltb_spec 0 (s - e)); [lia|]. now destruct date.
  - destruct (Z.leb_spec s e); [lia | reflexivity].
Qed.

(** *** Degenerate parameters *)

Lemma aggregate_nothing_kept (st : AppState) :
  dateFiltered newDate st = [] ->
  filteredAndAggregatedData tz newDate st = Normal [].
Proof.
  intros H. unfold filteredAndAggregatedData. rewrite H.
  now destruct (_ || _ || _).
Qed.

(** C4, as the code has it.  A missing start or end date, or a filter that
    names no location of the data, gives the empty result and raises
    nothing.  A range whose start is after its end is read as the interval
    between the two dates: it keeps what the range with the bounds swapped
    keeps, and the buckets are hourly. *)
Theorem degenerate_parameters
  (st : AppState) :
  (startDate st = EmptyString \/ endDate st = EmptyString
   \/ (selectedLocations st <> []
       /\ forall d, In d (data st) ->
            includes (selectedLocations st) (location d) = false) ->
   filteredAndAggregatedData tz newDate st = Normal [])
  /\ (forall s e,
        newDate (startDate st) = TimeValue s ->
        newDate (endDate st) = TimeValue e ->
        e < s ->
        aggregationMode tz (newDate (startDate st)) (newDate (endDate st)) = hourly
        /\ forall d, keep (TimeValue s) (TimeValue e) (selectedLocations st) d
                     = keep (TimeValue e) (TimeValue s) (selectedLocations st) d).
Proof.
  split.
  - intros [H | [H | [Hsel Habs]]].
    + unfold filteredAndAggregatedData. rewrite H. cbn. now rewrite orb_true_r.
    + unfold filteredAndAggregatedData. rewrite H. cbn. now rewrite orb_true_r.
    + apply aggregate_nothing_kept. unfold dateFiltered.
      rewrite <- (filter_ext_in (fun _ => false)).
      * clear Habs. induction (data st); cbn; auto.
      * intros d Hd. unfold keep. rewrite (Habs d Hd).
        destruct (selectedLocations st); [contradiction|].
        cbn. now rewrite andb_false_r.
  - intros s e Hs He Hlt. rewrite Hs, He. split.
    + unfold aggregationMode. rewrite differenceInDays_quot. unfold modeOfDiff.
      destruct (quot_day_bounds (e - s)) as [_ Hq]. specialize (Hq ltac:(lia)).
      unfold Cal.msPerDay.
      destruct (Z.ltb_spec 31 ((e - s) ÷ 86400000)); [lia|].
      destruct (Z.ltb_spec 7 ((e - s) ÷ 86400000)); [lia | reflexivity].
    + intros d. unfold keep, isWithinInterval. destruct (timestamp d); [| reflexivity].
      destruct (Z.ltb_spec 0 (s - e)); [| lia].
      destruct (Z.ltb_spec 0 (e - s)); [lia | reflexivity].
Qed.

End Facts.

(* ================================================================== *)
(** ** The properties on the sample states                             *)
(* ================================================================== *)

(** The reference constructor reads a date-only string as UTC and a
    date-time string as local time. *)
Lemma Date_parse_date_only (tz : Z) (s : string) :
  String.length s = 10%nat -> Date_parse tz s = Date_parse UTC s.
Proof.
  intros H. unfold Date_parse. now rewrite H.
Qed.

Lemma Date_parse_date_time (tz : Z) (s : string) :
  String.length s = 16%nat ->
  Date_parse tz s
  = match Date_parse UTC s with
    | TimeValue t => TimeValue (t - tz)
    | InvalidDate => InvalidDate
    end.
Proof.
  intros H. unfold Date_parse, UTC. rewrite H. cbn [Nat.eqb].
  destruct (_ && _); [| reflexivity].
  destruct (parse_ymd _); [| reflexivity].
  destruct (parse_hm _); [| reflexivity].
  f_equal. lia.
Qed.

(** In the end-to-end scenario both bounds are the first instant of
    2024-01-01 in UTC, whatever the zone, and the two readings are an hour
    apart: no zone keeps both. *)
Lemma e2e_keeps_at_most_one (tz : Z) :
  (List.length (dateFiltered (Date_parse tz) (e2e_state tz)) <= 1)%nat.
Proof.
  unfold dateFiltered, e2e_state, reading.
  cbn [data startDate endDate selectedLocations].
  rewrite (Date_parse_date_only tz "2024-01-01") by reflexivity.
  rewrite (Date_parse_date_time tz "2024-01-01T01:00") by reflexivity.
  rewrite (Date_parse_date_time tz "2024-01-01T02:00") by reflexivity.
  replace (Date_parse UTC "2024-01-01") with (TimeValue 1704067200000)
    by (vm_compute; reflexivity).
  replace (Date_parse UTC "2024-01-01T01:00") with (TimeValue 1704070800000)
    by (vm_compute; reflexivity).
  replace (Date_parse UTC "2024-01-01T02:00") with (TimeValue 1704074400000)
    by (vm_compute; reflexivity).
  unfold filter, keep, isWithinInterval.
  cbn [timestamp location].
  replace (0 <? 1704067200000 - 1704067200000) with false by reflexivity.
  destruct (Z.leb_spec 1704067200000 (1704070800000 - tz));
    destruct (Z.leb_spec (1704070800000 - tz) 1704067200000);
    destruct (Z.leb_spec 1704067200000 (1704074400000 - tz));
    destruct (Z.leb_spec (1704074400000 - tz) 1704067200000);
    try lia; cbn [andb]; 
    repeat match goal with |- context [if ?b then _ else _] =>
      match b with
      | false => idtac
      | _ => destruct b
      end end; cbn [List.length]; lia.
Qed.

(** C1, evaluated.  In the end-to-end scenario the component returns no
    bucket at all, in Seoul as in UTC: the range ends at the first instant
    of 2024-01-01 (UTC), before both readings.  In a zone one hour east of
    UTC the 01:00 reading falls on that instant and is the only one kept.
    The upload handler itself sets this range for a file holding the two
    readings, and the memo is then empty. *)
Theorem single_day_range_keeps_no_reading :
  filteredAndAggregatedData KST (Date_parse KST) (e2e_state KST) = Normal []
  /\ filteredAndAggregatedData UTC (Date_parse UTC) (e2e_state UTC) = Normal []
  /\ List.length (dateFiltered (Date_parse CET) (e2e_state CET)) = 1%nat
  /\ (forall tz, (List.length (dateFiltered (Date_parse tz) (e2e_state tz)) <= 1)%nat)
  /\ (let st := handleFileUpload KST (Date_parse KST) RefParse.parseFloat
                  initialState e2e_rows in
      List.length (data st) = 2%nat
      /\ startDate st = "2024-01-01" /\ endDate st = "2024-01-01"
      /\ selectedLocations st = ["A"]
      /\ filteredAndAggregatedData KST (Date_parse KST) st = Normal []).
Proof.
  split; [vm_compute; reflexivity|].
  split; [vm_compute; reflexivity|].
  split; [vm_compute; reflexivity|].
  split; [exact e2e_keeps_at_most_one|].
  repeat split; vm_compute; reflexivity.
Qed.



(** Readings listed latest first come out in the order of their hours. *)
Lemma output_sorted_by_bucket_key_witness :
  exists rows,
    filteredAndAggregatedData KST (Date_parse KST) two_hours_state = Normal rows
    /\ map date rows = ["2024-01-02 12:00"; "2024-01-02 15:00"]
    /\ StronglySorted date_le rows.
Proof.
  eexists. split; [vm_compute; reflexivity|]. split; [reflexivity|].
  apply (output_sorted_by_bucket_key KST (Date_parse KST) two_hours_state).
  vm_compute. reflexivity.
Defined.


(** The group of the three readings has count 3. *)
Lemma pivot_group_count_positive_witness :
  exists G locs stats,
    foldM (addReading KST hourly) (dateFiltered (Date_parse KST) mean_state) []
    = Normal G
    /\ In ("2024-01-02 12:00", locs) (Obj.entries G)
    /\ In ("A", stats) (Obj.entries locs)
    /\ count stats = 3.
Proof.
  eexists. eexists. eexists.
  split; [vm_compute; reflexivity|].
  split; [vm_compute; left; reflexivity|].
  split; [vm_compute; left; reflexivity|].
  match goal with
  | |- count ?stats = 3 =>
      destruct (pivot_group_count_positive KST hourly
                  (dateFiltered (Date_parse KST) mean_state)
                  [("2024-01-02 12:00", [("A", stats)])]
                  "2024-01-02 12:00" "A" [("A", stats)] stats) as (_ & Hc & _)
  end.
  - vm_compute. reflexivity.
  - vm_compute. left. reflexivity.
  - vm_compute. left. reflexivity.
  - rewrite Hc. vm_compute. reflexivity.
Defined.

(** C10 as stated fails: two finite readings whose sum overflows give a
    group of count 2 and an emitted value that is not finite. *)
Lemma emitted_value_not_finite :
  Forall (fun d => Num.isFinite (moisture d) = true) (data overflow_state)
  /\ filteredAndAggregatedData KST (Date_parse KST) overflow_state
     = Normal [overflow_row]
  /\ In ("A_moisture", PrimFloat.infinity) (series overflow_row)
  /\ Num.isFinite PrimFloat.infinity = false.
Proof.
  split; [repeat constructor|].
  split; [vm_compute; reflexivity|].
  split; [left; reflexivity | reflexivity].
Qed.

(** C4 as stated fails: a range entered backwards, with a reading between
    its two dates, gives a row. *)
Lemma inverted_range_not_empty :
  Date_parse KST (endDate inverted_state) = TimeValue 1704067200000
  /\ Date_parse KST (startDate inverted_state) = TimeValue 1704240000000
  /\ filteredAndAggregatedData KST (Date_parse KST) inverted_state
     = Normal [inverted_row]
  /\ filteredAndAggregatedData KST (Date_parse KST) inverted_state <> Normal [].
Proof.
  assert (H : filteredAndAggregatedData KST (Date_parse KST) inverted_state
              = Normal [inverted_row]) by (vm_compute; reflexivity).
  repeat split; try (vm_compute; reflexivity); try exact H.
  rewrite H. discriminate.
Qed.

(** A filter naming only an absent location gives no row; the range
    entered backwards is bucketed by the hour. *)
Lemma degenerate_parameters_witness :
  filteredAndAggregatedData KST (Date_parse KST) absent_filter_state = Normal []
  /\ aggregationMode KST (Date_parse KST (startDate inverted_state))
       (Date_parse KST (endDate inverted_state)) = hourly.
Proof.
  split.
  - apply (proj1 (degenerate_parameters KST (Date_parse KST) absent_filter_state)).
    right. right. split; [discriminate|].
    intros d [<- | []]. vm_compute. reflexivity.
  - apply (proj2 (degenerate_parameters KST (Date_parse KST) inverted_state)
             1704240000000 1704067200000).
    + vm_compute. reflexivity.
    + vm_compute. reflexivity.
    + lia.
Defined.

(** C3 as stated fails: a Sunday reading is bucketed under its own date,
    while its ISO week began on the Monday before. *)
Lemma sunday_reading_not_in_iso_week :
  aggregationMode KST (Date_parse KST (startDate sunday_state))
    (Date_parse KST (endDate sunday_state)) = weekly
  /\ filteredAndAggregatedData KST (Date_parse KST) sunday_state
     = Normal [sunday_row]
  /\ date sunday_row = "2024-01-07"
  /\ format KST (startOfISOWeek KST (Date_parse KST "2024-01-07T12:00")) fmt_yyyy_MM_dd
     = Normal "2024-01-01"
  /\ format KST (startOfISOWeek KST (Date_parse KST "2024-01-07T12:00")) fmt_yyyy_MM_dd
     <> Normal (date sunday_row).
Proof.
  repeat split; try (vm_compute; reflexivity).
  vm_compute. discriminate.
Qed.

(** The Sunday reading sits in the bucket of its own date. *)
Lemma weekly_bucket_is_sunday_week_witness :
  exists t w key r,
    timestamp (reading KST "A" "2024-01-07T12:00" 10) = TimeValue t
    /\ startOfWeek KST (timestamp (reading KST "A" "2024-01-07T12:00" 10)) = TimeValue w
    /\ getDay KST w = 0
    /\ localTime KST w mod Cal.msPerDay = 0
    /\ w <= t < w + 7 * Cal.msPerDay
    /\ format KST (TimeValue w) fmt_yyyy_MM_dd = Normal key
    /\ In r [sunday_row] /\ date r = key.
Proof.
  apply (weekly_bucket_is_sunday_week KST (Date_parse KST) sunday_state).
  - discriminate.
  - discriminate.
  - vm_compute. reflexivity.
  - vm_compute. reflexivity.
  - left. reflexivity.
Defined.

(* ================================================================== *)
(** ** Further properties of the component                             *)
(* ================================================================== *)

(** *** Lists, selections and lines *)

(** *** Normalised records *)

Lemma or_default_spec (v : option string) (dflt : string) :
  dflt <> EmptyString ->
  or_default v dflt <> EmptyString
  /\ (v = None \/ v = Some EmptyString -> or_default v dflt = dflt)
  /\ (forall s, v = Some s -> s <> EmptyString -> or_default v dflt = s).
Proof.
  intros Hd. unfold or_default. destruct v as [s |].
  - destruct (String.eqb_spec s EmptyString) as [-> | Hs].
    + repeat split; auto. intros s' E Hs'. inversion E. congruence.
    + repeat split; auto.
      * intros [E | E]; inversion E. congruence.
      * intros s' E _. now inversion E.
  - repeat split; auto. discriminate.
Qed.

Lemma or_zero_not_nan (x : float) : PrimFloat.is_nan (Num.or_zero x) = false.
Proof.
  unfold Num.or_zero, Num.truthy.
  destruct (PrimFloat.is_nan x) eqn:E; cbn [orb negb]; [reflexivity|].
  destruct (PrimFloat.is_zero x); cbn [negb]; [reflexivity | exact E].
Qed.

(** *** The locations memo *)

Lemma uniq_from_In (seen xs : list string) (x : string) :
  In x (uniq_from seen xs) <-> In x xs /\ ~ In x seen.
Proof.
  revert seen. induction xs as [| y xs IH]; intros seen; cbn; [tauto|].
  destruct (existsb (String.eqb y) seen) eqn:E.
  - apply existsb_exists in E. destruct E as (z & Hz & Ez).
    apply String.eqb_eq in Ez. subst z. rewrite IH. split.
    + tauto.
    + intros [[-> | H] Hn]; [contradiction | tauto].
  - assert (Hy : ~ In y seen).
    { intros H. assert (existsb (String.eqb y) seen = true); [| congruence].
      apply existsb_exists. exists y. now rewrite String.eqb_refl. }
    cbn. rewrite IH. cbn. split.
    + intros [<- | (H & Hn)]; [tauto|]. split; [tauto|]. tauto.
    + intros ([<- | H] & Hn); [tauto|].
      destruct (string_dec y x) as [-> | Hne]; [tauto|]. right. tauto.
Qed.

Lemma uniq_from_NoDup (seen xs : list string) : NoDup (uniq_from seen xs).
Proof.
  revert seen. induction xs as [| y xs IH]; intros seen; cbn; [constructor|].
  destruct (existsb (String.eqb y) seen); [apply IH|].
  constructor; [| apply IH]. rewrite uniq_from_In. cbn. tauto.
Qed.

Lemma locations_NoDup (l : list SensorData) : NoDup (locations l).
Proof. apply uniq_from_NoDup. Qed.

Lemma locations_In (l : list SensorData) (x : string) :
  In x (locations l) <-> exists d, In d l /\ location d = x.
Proof.
  unfold locations, uniq. rewrite uniq_from_In, in_map_iff. cbn.
  split; [intros [(d & E & H) _]; eauto | intros (d & H & E); split; eauto].
Qed.

(** X3.  The [locations] memo lists every location of the data exactly
    once, and nothing else. *)
Theorem locations_distinct_and_complete (l : list SensorData) :
  NoDup (locations l)
  /\ (forall x, In x (locations l) <-> exists d, In d l /\ location d = x)
  /\ (l = [] -> locations l = []).
Proof.
  split; [apply locations_NoDup|]. split; [apply locations_In|].
  intros ->. reflexivity.
Qed.

(** *** Toggles *)

Lemma toggle_In {A} (eqb : A -> A -> bool)
  (eqb_eq : forall a b, eqb a b = true <-> a = b) (x y : A) (l : list A) :
  In y (if existsb (eqb x) l then filter (fun z => negb (eqb z x)) l else l ++ [x])
  <-> (y = x /\ ~ In x l) \/ (y <> x /\ In y l).
Proof.
  assert (Hdec : forall a b : A, a = b \/ a <> b).
  { intros a b. destruct (eqb a b) eqn:E; [left; now apply eqb_eq|].
    right. intros H. apply eqb_eq in H. congruence. }
  destruct (existsb (eqb x) l) eqn:E.
  - apply existsb_exists in E. destruct E as (z & Hz & Ez). apply eqb_eq in Ez. subst z.
    rewrite filter_In, negb_true_iff. split.
    + intros [Hy Hne]. right. split; [| exact Hy].
      intros ->. assert (eqb x x = true) by now apply eqb_eq. congruence.
    + intros [[_ Hn] | [Hne Hy]]; [contradiction|]. split; [exact Hy|].
      destruct (eqb y x) eqn:Eyx; [| reflexivity]. apply eqb_eq in Eyx. contradiction.
  - assert (Hn : ~ In x l).
    { intros H. assert (existsb (eqb x) l = true); [| congruence].
      apply existsb_exists. exists x. split; [exact H | now apply eqb_eq]. }
    rewrite in_app_iff. cbn. split.
    + intros [H | [<- | []]]; [| now left].
      right. split; [| exact H]. intros ->. contradiction.
    + intros [[-> _] | [_ H]]; [right; now left | now left].
Qed.

Lemma toggle_NoDup {A} (eqb : A -> A -> bool)
  (eqb_eq : forall a b, eqb a b = true <-> a = b) (x : A) (l : list A) :
  NoDup l ->
  NoDup (if existsb (eqb x) l then filter (fun z => negb (eqb z x)) l else l ++ [x]).
Proof.
  intros Hnd. destruct (existsb (eqb x) l) eqn:E.
  - now apply NoDup_filter.
  - assert (Hn : ~ In x l).
    { intros H. assert (existsb (eqb x) l = true); [| congruence].
      apply existsb_exists. exists x. split; [exact H | now apply eqb_eq]. }
    clear E. induction Hnd as [| a l Ha Hnd IH]; cbn.
    + repeat constructor. tauto.
    + constructor.
      * rewrite in_app_iff. cbn. intros [H | [H | []]]; [contradiction|].
        apply Hn. now left.
      * apply IH. intros H. apply Hn. now right.
Qed.

Lemma toggle_absent_twice {A} (eqb : A -> A -> bool)
  (eqb_eq : forall a b, eqb a b = true <-> a = b) (x : A) (l : list A) :
  ~ In x l -> filter (fun z => negb (eqb z x)) (l ++ [x]) = l.
Proof.
  intros Hn. rewrite filter_app. cbn.
  assert (Hxx : eqb x x = true) by now apply eqb_eq. rewrite Hxx. cbn.
  rewrite app_nil_r. induction l as [| a l IH]; cbn; [reflexivity|].
  destruct (eqb a x) eqn:E.
  - apply eqb_eq in E. subst. exfalso. apply Hn. now left.
  - cbn. f_equal. apply IH. intros H. apply Hn. now right.
Qed.

Lemma Metric_eqb_eq (a b : Metric.t) : Metric.eqb a b = true <-> a = b.
Proof. destruct a, b; cbn; split; intros H; try discriminate; reflexivity. Qed.

Lemma toggle_twice_In {A} (dec : forall a b : A, {a = b} + {a <> b})
  (T : list A -> list A) (x : A)
  (HT : forall l y, In y (T l) <-> (y = x /\ ~ In x l) \/ (y <> x /\ In y l))
  (l : list A) (y : A) :
  In y (T (T l)) <-> In y l.
Proof.
  rewrite (HT (T l) y). split.
  - intros [[-> Hn] | [Hne Hy]].
    + destruct (in_dec dec x l) as [Hin | Hnin]; [exact Hin|].
      exfalso. apply Hn. apply HT. left. split; [reflexivity | exact Hnin].
    + apply HT in Hy. destruct Hy as [[-> _] | [_ Hy]]; [contradiction | exact Hy].
  - intros Hy. destruct (dec y x) as [-> | Hne].
    + left. split; [reflexivity|]. intros H. apply HT in H.
      destruct H as [[_ Hn] | [Hne _]]; contradiction.
    + right. split; [exact Hne|]. apply HT. right. split; assumption.
Qed.

Lemma Metric_eq_dec (a b : Metric.t) : {a = b} + {a <> b}.
Proof. decide equality. Qed.

Lemma toggleLocation_In (loc x : string) (prev : list string) :
  In x (toggleLocation loc prev)
  <-> (x = loc /\ ~ In loc prev) \/ (x <> loc /\ In x prev).
Proof. apply (toggle_In String.eqb String.eqb_eq). Qed.

Lemma toggleLocation_NoDup (loc : string) (prev : list string) :
  NoDup prev -> NoDup (toggleLocation loc prev).
Proof. apply (toggle_NoDup String.eqb String.eqb_eq). Qed.

(** X4.  [toggleLocation] flips the membership of its location and of no
    other, keeps a selection free of repetitions, and applied twice gives
    back the same selected set; an absent location is added at the end,
    and toggling it again restores the very list. *)
Theorem toggleLocation_flips (loc : string) (prev : list string) :
  (forall x, In x (toggleLocation loc prev)
             <-> (x = loc /\ ~ In loc prev) \/ (x <> loc /\ In x prev))
  /\ (NoDup prev -> NoDup (toggleLocation loc prev))
  /\ (forall x, In x (toggleLocation loc (toggleLocation loc prev)) <-> In x prev)
  /\ (~ In loc prev ->
      toggleLocation loc prev = prev ++ [loc]
      /\ toggleLocation loc (toggleLocation loc prev) = prev).
Proof.
  split; [intros x; apply toggleLocation_In|].
  split; [apply toggleLocation_NoDup|]. split.
  - intros x. apply (toggle_twice_In string_dec (toggleLocation loc) loc).
    intros l y. apply toggleLocation_In.
  - intros Hn. assert (E : includes prev loc = false).
    { destruct (includes prev loc) eqn:E; [| reflexivity].
      apply includes_In in E. contradiction. }
    assert (E1 : toggleLocation loc prev = prev ++ [loc]).
    { unfold toggleLocation. now rewrite E. }
    split; [exact E1|]. rewrite E1. unfold toggleLocation.
    assert (E2 : includes (prev ++ [loc]) loc = true).
    { apply includes_In. apply in_app_iff. right. now left. }
    rewrite E2. now apply (toggle_absent_twice String.eqb String.eqb_eq).
Qed.

(** X5.  [toggleMetric] does the same on the metrics to draw. *)
Theorem toggleMetric_flips (metric : Metric.t) (prev : list Metric.t) :
  (forall m, In m (toggleMetric metric prev)
             <-> (m = metric /\ ~ In metric prev) \/ (m <> metric /\ In m prev))
  /\ (NoDup prev -> NoDup (toggleMetric metric prev))
  /\ (forall m, In m (toggleMetric metric (toggleMetric metric prev)) <-> In m prev)
  /\ (~ In metric prev ->
      toggleMetric metric prev = prev ++ [metric]
      /\ toggleMetric metric (toggleMetric metric prev) = prev).
Proof.
  assert (HIn : forall p m, In m (toggleMetric metric p)
                  <-> (m = metric /\ ~ In metric p) \/ (m <> metric /\ In m p)).
  { intros p m. apply (toggle_In Metric.eqb Metric_eqb_eq). }
  split; [apply HIn|].
  split; [apply (toggle_NoDup Metric.eqb Metric_eqb_eq)|]. split.
  - intros m. apply (toggle_twice_In Metric_eq_dec (toggleMetric metric) metric).
    intros l y. apply HIn.
  - intros Hn. assert (E : Metric.includes prev metric = false).
    { destruct (Metric.includes prev metric) eqn:E; [| reflexivity].
      apply existsb_exists in E. destruct E as (z & Hz & Ez).
      apply Metric_eqb_eq in Ez. subst. contradiction. }
    assert (E1 : toggleMetric metric prev = prev ++ [metric]).
    { unfold toggleMetric. now rewrite E. }
    split; [exact E1|]. rewrite E1. unfold toggleMetric.
    assert (E2 : Metric.includes (prev ++ [metric]) metric = true).
    { apply existsb_exists. exists metric. split.
      - apply in_app_iff. right. now left.
      - now apply Metric_eqb_eq. }
    rewrite E2. now apply (toggle_absent_twice Metric.eqb Metric_eqb_eq).
Qed.

(** *** Uploads *)





(** *** What the handlers keep *)

Lemma withLocations_self (st : AppState) :
  withLocations st (selectedLocations st) = st.
Proof. now destruct st. Qed.

Lemma all_selected_lengths (st : AppState) :
  wellFormed st ->
  ((List.length (selectedLocations st) =? List.length (locations (data st)))%nat = true
   <-> forall l, In l (locations (data st)) -> In l (selectedLocations st)).
Proof.
  intros (_ & Hnd & Hincl). rewrite Nat.eqb_eq. split.
  - intros Hlen. apply (NoDup_length_incl Hnd); [lia | exact Hincl].
  - intros Hall. apply Nat.le_antisymm.
    + now apply NoDup_incl_length.
    + apply NoDup_incl_length; [apply locations_NoDup | exact Hall].
Qed.

(** X9.  On a well-formed state the length test of the "all" button is
    exact: the lengths agree iff every location is selected.  The button
    then deselects everything; otherwise it selects every location. *)
Theorem toggleAllLocations_exact (st : AppState) (Hwf : wellFormed st) :
  ((List.length (selectedLocations st) =? List.length (locations (data st)))%nat = true
   <-> forall l, In l (locations (data st)) -> In l (selectedLocations st))
  /\ ((forall l, In l (locations (data st)) -> In l (selectedLocations st)) ->
      toggleAllLocations st = [])
  /\ (~ (forall l, In l (locations (data st)) -> In l (selectedLocations st)) ->
      toggleAllLocations st = locations (data st)).
Proof.
  pose proof (all_selected_lengths st Hwf) as Hiff.
  split; [exact Hiff|]. unfold toggleAllLocations. split; intros H.
  - apply Hiff in H. now rewrite H.
  - clear Hiff. destruct (_ =? _)%nat eqn:E; [| reflexivity].
    exfalso. apply H. now apply (proj1 (all_selected_lengths st Hwf)).
Qed.

Lemma chartLines_no_selection (v : ViewState) :
  selectedLocations (app v) = [] -> chartLines v = [].
Proof.
  intros E. unfold chartLines. rewrite E.
  assert (H : filter (includes []) (locations (data (app v))) = []).
  { induction (locations (data (app v))); cbn; auto. }
  now rewrite H.
Qed.

(** *** The table of the first records *)

Lemma mapM_length {A B} (f : A -> completion B) (l : list A) (bs : list B) :
  mapM f l = Normal bs -> List.length bs = List.length l.
Proof.
  revert bs. induction l as [| a l IH]; cbn; intros bs H.
  - now inversion H.
  - destruct (f a); cbn in H; [| discriminate].
    destruct (mapM f l) as [bs0 |]; cbn in H; [| discriminate].
    inversion H; subst. cbn. f_equal. now apply IH.
Qed.

Lemma mapM_throws {A B} (f : A -> completion B) (l : list A) (a : A) (e : JsError) :
  In a l -> f a = Throw e -> exists e', mapM f l = Throw e'.
Proof.
  intros Hin Ha. induction l as [| a' l IH]; [destruct Hin|]. cbn.
  destruct Hin as [-> | Hin].
  - rewrite Ha. cbn. eauto.
  - destruct (f a'); cbn; [| eauto].
    destruct (IH Hin) as [e' ->]. cbn. eauto.
Qed.

Lemma In_firstn {A} (n : nat) (l : list A) (x : A) : In x (firstn n l) -> In x l.
Proof.
  intros H. rewrite <- (firstn_skipn n l). apply in_app_iff. now left.
Qed.

(** *** The rows *)

Lemma insert_index_perm {V} (a : string * V) (l : Obj.t V) :
  Permutation (Obj.insert_index a l) (a :: l).
Proof.
  induction l as [| b l IH]; cbn; [reflexivity|].
  destruct (_ <=? _); [reflexivity|].
  rewrite IH. apply perm_swap.
Qed.

Lemma filter_split_perm {A} (p : A -> bool) (l : list A) :
  Permutation (filter p l ++ filter (fun x => negb (p x)) l) l.
Proof.
  induction l as [| a l IH]; cbn; [reflexivity|].
  destruct (p a); cbn.
  - now constructor.
  - rewrite <- Permutation_middle. now constructor.
Qed.

Lemma entries_perm {V} (o : Obj.t V) : Permutation (Obj.entries o) o.
Proof.
  unfold Obj.entries.
  assert (H : forall l : Obj.t V, Permutation (fold_right Obj.insert_index [] l) l).
  { induction l as [| a l IH]; cbn; [reflexivity|].
    rewrite insert_index_perm. now constructor. }
  rewrite H. apply filter_split_perm.
Qed.

Lemma insert_row_perm (a : ChartRow) (l : list ChartRow) :
  Permutation (insert_row a l) (a :: l).
Proof.
  induction l as [| b l IH]; cbn; [reflexivity|].
  destruct (row_le a b); [reflexivity|].
  rewrite IH. apply perm_swap.
Qed.

Lemma sort_rows_perm (l : list ChartRow) : Permutation (sort_rows l) l.
Proof.
  induction l as [| a l IH]; cbn; [reflexivity|].
  rewrite insert_row_perm. now constructor.
Qed.

Lemma string_ltb_of_leb (a b : string) :
  String.leb a b = true -> a <> b -> String.ltb a b = true.
Proof.
  unfold String.leb, String.ltb. intros H Hne.
  destruct (String.compare a b) eqn:E; try discriminate; [| reflexivity].
  apply String.compare_eq_iff in E. contradiction.
Qed.

Lemma sorted_distinct_strict (l : list ChartRow) :
  StronglySorted date_le l -> NoDup (map date l) -> StronglySorted date_lt l.
Proof.
  induction 1 as [| a l Hs IH Hall]; cbn; intros Hnd; [constructor|].
  inversion Hnd as [| ? ? Hnotin Hnd']; subst.
  constructor; [now apply IH|].
  rewrite Forall_forall in *. intros b Hb. apply string_ltb_of_leb.
  - now apply Hall.
  - intros E. apply Hnotin. rewrite E. now apply in_map.
Qed.

(** *** The chart's lines *)

Lemma indexed_In {A} (l : list A) (x : A) :
  In x l <-> exists i, In (i, x) (indexed l).
Proof.
  unfold indexed. split.
  - generalize 0%nat. induction l as [| a l IH]; intros s Hx; [destruct Hx|].
    cbn. destruct Hx as [-> | Hx].
    + exists s. now left.
    + destruct (IH (S s) Hx) as [i Hi]. exists i. now right.
  - intros [i Hi]. now apply in_combine_r in Hi.
Qed.

Lemma Metric_includes_In (l : list Metric.t) (m : Metric.t) :
  Metric.includes l m = true <-> In m l.
Proof.
  unfold Metric.includes. rewrite existsb_exists. split.
  - intros (y & Hin & E). apply Metric_eqb_eq in E. now subst.
  - intros Hin. exists m. split; [exact Hin | now apply Metric_eqb_eq].
Qed.

Lemma chartLines_In (v : ViewState) (line : ChartLine) :
  In line (chartLines v)
  <-> exists locIdx loc metricIdx metric,
        In (locIdx, loc)
           (indexed (filter (includes (selectedLocations (app v)))
                            (locations (data (app v)))))
        /\ In (metricIdx, metric) (indexed Metric.keys)
        /\ In metric (selectedMetrics v)
        /\ line = lineOf locIdx loc metricIdx metric.
Proof.
  unfold chartLines. rewrite in_flat_map. split.
  - intros ([locIdx loc] & Hl & Hline). apply (proj1 (in_flat_map _ _ _)) in Hline.
    destruct Hline as ([metricIdx metric] & Hm & Hline). cbn [fst snd] in Hline.
    destruct (Metric.includes (selectedMetrics v) metric) eqn:E; [| destruct Hline].
    destruct Hline as [<- | []]. apply Metric_includes_In in E.
    exists locIdx, loc, metricIdx, metric. auto.
  - intros (locIdx & loc & metricIdx & metric & Hl & Hm & Hsel & ->).
    exists (locIdx, loc). split; [exact Hl|]. apply in_flat_map.
    exists (metricIdx, metric). split; [exact Hm|]. cbn [fst snd].
    apply Metric_includes_In in Hsel. rewrite Hsel. now left.
Qed.

Lemma chartLines_keys (v : ViewState) (k : string) :
  In k (map dataKey (chartLines v))
  <-> exists loc metric,
        In loc (locations (data (app v)))
        /\ In loc (selectedLocations (app v))
        /\ In metric (selectedMetrics v)
        /\ k = (loc ++ "_" ++ Metric.key metric)%string.
Proof.
  rewrite in_map_iff. split.
  - intros (line & <- & Hline). apply chartLines_In in Hline.
    destruct Hline as (locIdx & loc & metricIdx & metric & Hl & _ & Hsel & ->).
    assert (Hloc : In loc (filter (includes (selectedLocations (app v)))
                                  (locations (data (app v)))))
      by (apply indexed_In; eauto).
    apply filter_In in Hloc. destruct Hloc as [Hloc Hinc]. apply includes_In in Hinc.
    exists loc, metric. auto.
  - intros (loc & metric & Hloc & Hinc & Hsel & ->).
    assert (Hf : In loc (filter (includes (selectedLocations (app v)))
                                (locations (data (app v))))).
    { apply filter_In. split; [exact Hloc | now apply includes_In]. }
    apply indexed_In in Hf. destruct Hf as [locIdx Hl].
    assert (Hm : In metric Metric.keys) by (destruct metric; cbn; auto).
    apply indexed_In in Hm. destruct Hm as [metricIdx Hm].
    exists (lineOf locIdx loc metricIdx metric). split; [reflexivity|].
    apply chartLines_In. exists locIdx, loc, metricIdx, metric. auto.
Qed.

(** X18.  The chart draws exactly one kind of line: a data key
    [location_metric] is drawn iff the location occurs in the data and is
    selected, and the metric is selected.  Every line is stroked with a
    colour of the palette. *)
Theorem chart_lines_are_selected_pairs (v : ViewState) :
  (forall k, In k (map dataKey (chartLines v))
     <-> exists loc metric,
           In loc (locations (data (app v)))
           /\ In loc (selectedLocations (app v))
           /\ In metric (selectedMetrics v)
           /\ k = (loc ++ "_" ++ Metric.key metric)%string)
  /\ (forall line, In line (chartLines v) -> In (stroke line) palette).
Proof.
  split; [apply chartLines_keys|].
  intros line Hline. apply chartLines_In in Hline.
  destruct Hline as (locIdx & loc & metricIdx & metric & _ & _ & _ & ->).
  cbn [stroke lineOf]. apply nth_In. unfold colorIdx.
  apply Nat.mod_upper_bound. cbn. discriminate.
Qed.

(** X20.  The colour index of a line stays inside the palette.  It tells
    the lines of up to five drawn locations apart, and repeats from the
    sixth location on. *)
Theorem colorIdx_range_and_period (locIdx metricIdx : nat) :
  (colorIdx locIdx metricIdx < List.length palette)%nat
  /\ (forall locIdx' metricIdx',
        (locIdx < 5)%nat -> (locIdx' < 5)%nat ->
        (metricIdx < 3)%nat -> (metricIdx' < 3)%nat ->
        colorIdx locIdx metricIdx = colorIdx locIdx' metricIdx' ->
        locIdx = locIdx' /\ metricIdx = metricIdx')
  /\ colorIdx (locIdx + 5) metricIdx = colorIdx locIdx metricIdx.
Proof.
  unfold colorIdx. cbn [List.length Metric.keys palette].
  split; [apply Nat.mod_upper_bound; discriminate|]. split.
  - intros l' m' Hl Hl' Hm Hm' E.
    rewrite !Nat.mod_small in E by lia. lia.
  - replace ((locIdx + 5) * 3 + metricIdx)%nat
      with (locIdx * 3 + metricIdx + 1 * 15)%nat by lia.
    apply Nat.Div0.mod_add.
Qed.

Section ViewFacts.

Variable tz : Z.
Variable newDate : string -> Date.
Variable parseFloat : string -> float.

(** X1.  A normalised record never has an empty serial number or
    location: a missing or empty field reads as ["N/A"], respectively
    ["Unknown"], and any other field is kept as it is. *)
Theorem normalised_labels (row : RawSensorData) :
  let d := toSensorData newDate parseFloat row in
  serialNumber d <> EmptyString
  /\ location d <> EmptyString
  /\ (raw_serialNumber row = None \/ raw_serialNumber row = Some EmptyString ->
      serialNumber d = "N/A")
  /\ (raw_location row = None \/ raw_location row = Some EmptyString ->
      location d = "Unknown")
  /\ (forall s, raw_serialNumber row = Some s -> s <> EmptyString -> serialNumber d = s)
  /\ (forall s, raw_location row = Some s -> s <> EmptyString -> location d = s).
Proof.
  cbn [toSensorData serialNumber location].
  destruct (or_default_spec (raw_serialNumber row) "N/A" ltac:(discriminate))
    as (H1 & H2 & H3).
  destruct (or_default_spec (raw_location row) "Unknown" ltac:(discriminate))
    as (H4 & H5 & H6).
  repeat split; assumption.
Qed.

(** X2.  No numeric field of a normalised record is [NaN], whatever the
    row holds and whatever [parseFloat] makes of it. *)
Theorem normalised_numbers_not_nan (row : RawSensorData) :
  let d := toSensorData newDate parseFloat row in
  PrimFloat.is_nan (battery d) = false
  /\ PrimFloat.is_nan (moisture d) = false
  /\ PrimFloat.is_nan (ec d) = false
  /\ PrimFloat.is_nan (temperature d) = false.
Proof.
  cbn [toSensorData battery moisture ec temperature].
  repeat split; apply or_zero_not_nan.
Qed.

(** With a valid row the callback takes no [catch]: [format] is given
    valid dates. *)
Lemma handleFileUpload_parsed (st : AppState) (rows : list RawSensorData) :
  parsedData newDate parseFloat rows <> [] ->
  exists s e,
    format tz (TimeValue (minTime (map getTime (parsedData newDate parseFloat rows))))
      fmt_yyyy_MM_dd = Normal s
    /\ format tz (TimeValue (maxTime (map getTime (parsedData newDate parseFloat rows))))
         fmt_yyyy_MM_dd = Normal e
    /\ handleFileUpload tz newDate parseFloat st rows
       = {| data := parsedData newDate parseFloat rows;
            startDate := s; endDate := e;
            selectedLocations := locations (parsedData newDate parseFloat rows) |}.
Proof.
  intros Hne. unfold handleFileUpload.
  destruct (parsedData newDate parseFloat rows) as [| d l] eqn:E; [congruence|].
  cbn [List.length Nat.eqb]. unfold format. eexists. eexists.
  split; [reflexivity|]. split; reflexivity.
Qed.

Lemma handleFileUpload_none (st : AppState) (rows : list RawSensorData) :
  parsedData newDate parseFloat rows = [] ->
  handleFileUpload tz newDate parseFloat st rows = st.
Proof. intros E. unfold handleFileUpload. now rewrite E. Qed.


(** X7.  The file handler leaves the state as it is when no file is
    chosen, when the file is larger than 10 MiB, when parsing fails, and
    when no row has a valid timestamp; a file of exactly 10 MiB is read. *)
Theorem rejected_upload_keeps_state (st : AppState) :
  handleFileUploadEvent tz newDate parseFloat st None = st
  /\ (forall f, maxFileSize < size f ->
        handleFileUploadEvent tz newDate parseFloat st (Some f) = st)
  /\ (forall f, outcome f = ParseError ->
        handleFileUploadEvent tz newDate parseFloat st (Some f) = st)
  /\ (forall f rows, outcome f = Complete rows ->
        parsedData newDate parseFloat rows = [] ->
        handleFileUploadEvent tz newDate parseFloat st (Some f) = st)
  /\ (forall rows,
        handleFileUploadEvent tz newDate parseFloat st
          (Some {| size := 10485760; outcome := Complete rows |})
        = handleFileUpload tz newDate parseFloat st rows).
Proof.
  unfold handleFileUploadEvent. split; [reflexivity|]. split.
  - intros f H. destruct (Z.ltb_spec maxFileSize (size f)); [reflexivity | lia].
  - split; [| split].
    + intros f ->. now destruct (_ <? _).
    + intros f rows -> E. rewrite (handleFileUpload_none st rows E).
      now destruct (_ <? _).
    + intros rows. reflexivity.
Qed.

Lemma handleFileUpload_wellFormed (st : AppState) (rows : list RawSensorData) :
  wellFormed st -> wellFormed (handleFileUpload tz newDate parseFloat st rows).
Proof.
  intros Hwf.
  destruct (parsedData newDate parseFloat rows) as [| d l] eqn:E.
  - now rewrite (handleFileUpload_none st rows E).
  - destruct (handleFileUpload_parsed st rows) as (s & e & _ & _ & ->);
      [rewrite E; discriminate|].
    unfold wellFormed. cbn [data selectedLocations].
    split; [apply parsedData_valid|].
    split; [apply locations_NoDup | apply incl_refl].
Qed.

Lemma handle_wellFormed (v : ViewState) (ev : Event) :
  wellFormed (app v) -> offered v ev ->
  wellFormed (app (handle tz newDate parseFloat v ev)).
Proof.
  intros Hwf Hev. pose proof Hwf as (Hv & Hnd & Hincl).
  destruct ev as [file | confirmed | value | value | loc | | metric];
    cbn [handle app withApp].
  - unfold handleFileUploadEvent. destruct file as [f |]; [| exact Hwf].
    destruct (_ <? _); [exact Hwf|].
    destruct (outcome f); [now apply handleFileUpload_wellFormed | exact Hwf].
  - destruct confirmed; cbn; [| exact Hwf].
    repeat split; cbn; try constructor. intros x [].
  - exact Hwf.
  - exact Hwf.
  - unfold wellFormed, withLocations. cbn [data selectedLocations].
    split; [exact Hv|]. split; [now apply toggleLocation_NoDup|].
    intros x Hx. apply toggleLocation_In in Hx.
    destruct Hx as [[-> _] | [_ Hx]]; [exact Hev | now apply Hincl].
  - unfold wellFormed, withLocations, toggleAllLocations. cbn [data selectedLocations].
    split; [exact Hv|]. destruct (_ =? _)%nat.
    + split; [constructor | intros x []].
    + split; [apply locations_NoDup | apply incl_refl].
  - exact Hwf.
Qed.

Lemma reachable_inv (v : ViewState) :
  reachable tz newDate parseFloat v -> wellFormed (app v).
Proof.
  induction 1 as [| v ev _ IH Hev].
  - repeat split; cbn; try constructor. intros x [].
  - now apply handle_wellFormed.
Qed.


(** X10.  With every location selected, the "all" button empties the
    selection; the aggregated rows stay what they were, since the empty
    filter selects all, but the chart draws no line any more. *)
Theorem deselect_all_hides_lines_only (v : ViewState)
  (Hwf : wellFormed (app v))
  (Hall : forall l, In l (locations (data (app v))) ->
                    In l (selectedLocations (app v))) :
  let v' := handle tz newDate parseFloat v ToggleAllLocations in
  selectedLocations (app v') = []
  /\ filteredAndAggregatedData tz newDate (app v')
     = filteredAndAggregatedData tz newDate (app v)
  /\ chartLines v' = [].
Proof.
  cbn zeta. cbn [handle app withApp].
  assert (Hsel : toggleAllLocations (app v) = []).
  { unfold toggleAllLocations.
    now rewrite (proj2 (all_selected_lengths (app v) Hwf) Hall). }
  rewrite Hsel. split; [reflexivity|]. split.
  - rewrite <- (withLocations_self (app v)) at 2.
    unfold filteredAndAggregatedData.
    rewrite (dateFiltered_covering newDate (app v) (selectedLocations (app v))).
    + reflexivity.
    + intros d Hd. apply includes_In. apply Hall. apply locations_In. eauto.
  - now apply chartLines_no_selection.
Qed.

Lemma previewRows_valid (st : AppState) :
  validData (data st) ->
  exists rows, previewRows tz st = Normal rows
    /\ List.length rows = Nat.min 10 (List.length (data st)).
Proof.
  intros Hv. unfold previewRows.
  match goal with |- context [mapM ?f ?l] =>
    destruct (mapM_total f l) as [rows Hrows] end.
  - intros d Hd. apply In_firstn in Hd.
    unfold validData in Hv. rewrite Forall_forall in Hv. specialize (Hv d Hd).
    destruct (timestamp d) as [t |]; [| discriminate].
    unfold format. cbn [bind]. eauto.
  - exists rows. split; [exact Hrows|].
    rewrite (mapM_length _ _ _ Hrows). apply length_firstn.
Qed.

(** X11.  In every reachable state the table of the first records
    renders: formatting the timestamps raises nothing, and the table has
    ten rows, or as many as there are readings.  A single invalid
    timestamp among the first ten would make the render raise. *)
Theorem preview_renders (v : ViewState)
  (Hreach : reachable tz newDate parseFloat v) :
  (exists rows, previewRows tz (app v) = Normal rows
     /\ List.length rows = Nat.min 10 (List.length (data (app v))))
  /\ (forall st d, In d (firstn 10 (data st)) -> timestamp d = InvalidDate ->
        exists e, previewRows tz st = Throw e).
Proof.
  split.
  - apply previewRows_valid. now destruct (reachable_inv v Hreach).
  - intros st d Hd Hinv. unfold previewRows.
    eapply mapM_throws; [exact Hd|]. rewrite Hinv. cbn. reflexivity.
Qed.

(** *** The filter *)

(** X12.  With valid bounds in order, a reading is kept iff its
    timestamp is an instant between the two bounds, both included, and the
    location filter is empty or names its location.  The bounds are the
    instants [new Date] gives for the two date strings. *)
Theorem filter_rule (st : AppState) (s e : Z) (d : SensorData)
  (Hs : newDate (startDate st) = TimeValue s)
  (He : newDate (endDate st) = TimeValue e)
  (Hord : s <= e) :
  In d (dateFiltered newDate st)
  <-> In d (data st)
      /\ (exists t, timestamp d = TimeValue t /\ s <= t <= e)
      /\ (selectedLocations st = [] \/ In (location d) (selectedLocations st)).
Proof.
  unfold dateFiltered. rewrite filter_In, Hs, He. unfold keep, isWithinInterval.
  rewrite andb_true_iff, orb_true_iff, includes_In.
  destruct (Z.ltb_spec 0 (s - e)); [lia|].
  assert (Hlen : (List.length (selectedLocations st) =? 0)%nat = true
                 <-> selectedLocations st = []).
  { destruct (selectedLocations st); cbn; split; intros; congruence. }
  rewrite Hlen. destruct (timestamp d) as [t |].
  - rewrite andb_true_iff, !Z.leb_le. split.
    + intros (Hd & Ht & Hl). repeat split; eauto.
    + intros (Hd & (t' & Et & Ht) & Hl). inversion Et; subst. tauto.
  - split.
    + intros (_ & Hf & _). discriminate.
    + intros (_ & (t' & Et & _) & _). discriminate.
Qed.

(** X13.  When either date string does not give a valid [Date], nothing
    is kept and the memo is empty; it raises nothing. *)
Theorem invalid_bound_gives_nothing (st : AppState)
  (Hinv : newDate (startDate st) = InvalidDate \/ newDate (endDate st) = InvalidDate) :
  dateFiltered newDate st = []
  /\ filteredAndAggregatedData tz newDate st = Normal [].
Proof.
  assert (H : dateFiltered newDate st = []).
  { unfold dateFiltered. rewrite <- (filter_ext_in (fun _ => false)).
    - induction (data st); cbn; auto.
    - intros d _. unfold keep, isWithinInterval.
      destruct Hinv as [-> | ->]; destruct (timestamp d); try reflexivity.
      now destruct (newDate (startDate st)). }
  split; [exact H | now apply aggregate_nothing_kept].
Qed.

Lemma mapM_flatten_dates (mode : AggregationMode) (es : list (string * Obj.t Stats))
  (rows : list ChartRow) :
  mapM (flatten tz newDate mode) es = Normal rows -> map date rows = map fst es.
Proof.
  revert rows. induction es as [| [k locs] es IH]; cbn [mapM]; intros rows H.
  - now inversion H.
  - destruct (flatten tz newDate mode (k, locs)) as [r |] eqn:Er; cbn in H;
      [| discriminate].
    destruct (mapM (flatten tz newDate mode) es) as [rs |]; cbn in H; [| discriminate].
    inversion H; subst. cbn. apply flatten_row in Er. destruct Er as [-> _].
    f_equal. now apply IH.
Qed.

(** Every bucket was opened by a reading. *)
Lemma foldM_keys_from (mode : AggregationMode) (l' l : list SensorData) (G G' : Groups) :
  (forall k, Obj.get_own G k <> None ->
     exists d, In d l /\ timeKeyOf tz mode (timestamp d) = Normal k) ->
  foldM (addReading tz mode) l' G = Normal G' ->
  forall k, Obj.get_own G' k <> None ->
    exists d, In d (l ++ l') /\ timeKeyOf tz mode (timestamp d) = Normal k.
Proof.
  revert l G. induction l' as [| d l' IH]; intros l G HG Hrun k Hk; cbn in Hrun.
  - inversion Hrun; subst. rewrite app_nil_r. auto.
  - destruct (addReading tz mode G d) as [G1 |] eqn:E; [| discriminate].
    cbn in Hrun. replace (l ++ d :: l') with ((l ++ [d]) ++ l')
      by now rewrite <- app_assoc.
    apply (IH (l ++ [d]) G1); [| exact Hrun | exact Hk].
    intros k1 Hk1.
    destruct (timeKeyOf tz mode (timestamp d)) as [k0 |] eqn:Ek0.
    + destruct (String.eqb_spec k1 k0) as [-> | Hne].
      * exists d. split; [apply in_app_iff; right; now left | exact Ek0].
      * rewrite (addReading_other_keys tz mode G G1 d k0 k1 E Ek0 Hne) in Hk1.
        destruct (HG k1 Hk1) as (d1 & Hd1 & Ed1). exists d1.
        split; [apply in_app_iff; now left | exact Ed1].
    + unfold addReading in E. rewrite Ek0 in E. discriminate.
Qed.

Lemma keys_of_readings_length (mode : AggregationMode) (l : list SensorData) :
  (List.length (flat_map (fun d => match timeKeyOf tz mode (timestamp d) with
                                   | Normal k => [k] | Throw _ => [] end) l)
   <= List.length l)%nat.
Proof.
  induction l as [| d l IH]; cbn; [lia|].
  rewrite length_app. destruct (timeKeyOf tz mode (timestamp d)); cbn; lia.
Qed.

(** X14.  The memo returns one row per bucket key: the keys of the rows
    are pairwise distinct and strictly increasing, every row is the bucket
    of at least one kept reading, and there are no more rows than kept
    readings. *)
Theorem rows_one_per_bucket (st : AppState) (rows : list ChartRow)
  (Hrun : filteredAndAggregatedData tz newDate st = Normal rows) :
  let mode := aggregationMode tz (newDate (startDate st)) (newDate (endDate st)) in
  NoDup (map date rows)
  /\ StronglySorted date_lt rows
  /\ (List.length rows <= List.length (dateFiltered newDate st))%nat
  /\ (forall r, In r rows ->
        exists d, In d (dateFiltered newDate st)
                  /\ timeKeyOf tz mode (timestamp d) = Normal (date r)).
Proof.
  intros mode.
  destruct (aggregate_cases tz newDate st rows Hrun)
    as [[-> _] | (_ & _ & G & rows0 & Hfold & HG & Hmap & ->)].
  { split; [constructor|]. split; [constructor|]. split; [cbn; lia | intros r []]. }
  fold mode in Hfold, HG, Hmap.
  pose proof (mapM_flatten_dates mode _ _ Hmap) as Hdates.
  assert (Hperm : Permutation (map date (sort_rows rows0)) (map fst G)).
  { rewrite (Permutation_map date (sort_rows_perm rows0)), Hdates.
    apply Permutation_map, entries_perm. }
  destruct HG as (Hnd & _ & _ & _).
  assert (Hnd' : NoDup (map date (sort_rows rows0))).
  { eapply Permutation_NoDup; [symmetry; exact Hperm | exact Hnd]. }
  assert (Hfrom : forall k, In k (map fst G) ->
            exists d, In d (dateFiltered newDate st)
                      /\ timeKeyOf tz mode (timestamp d) = Normal k).
  { intros k Hk.
    apply (foldM_keys_from mode (dateFiltered newDate st) [] [] G); [| exact Hfold |].
    - intros k' Hk'. now contradiction Hk'.
    - intros Hnone. now apply get_own_None in Hnone. }
  split; [exact Hnd'|]. split; [| split].
  - apply sorted_distinct_strict; [apply sort_rows_sorted | exact Hnd'].
  - rewrite <- (length_map date), (Permutation_length Hperm).
    etransitivity; [| apply (keys_of_readings_length mode)].
    apply NoDup_incl_length; [exact Hnd|].
    intros k Hk. destruct (Hfrom k Hk) as (d & Hd & Ek).
    apply in_flat_map. exists d. split; [exact Hd|]. rewrite Ek. now left.
  - intros r Hr. apply Hfrom.
    apply (Permutation_in _ Hperm). now apply in_map.
Qed.



(** Where an entry of a row comes from. *)
Lemma series_entry_origin (st : AppState) (rows : list ChartRow) (r : ChartRow)
  (k : string) (x : float) :
  filteredAndAggregatedData tz newDate st = Normal rows ->
  In r rows -> In (k, x) (series r) ->
  exists loc metric d,
    Obj.inherited loc = false
    /\ k = (loc ++ "_" ++ Metric.key metric)%string
    /\ In d (dateFiltered newDate st) /\ location d = loc
    /\ timeKeyOf tz (aggregationMode tz (newDate (startDate st)) (newDate (endDate st)))
         (timestamp d) = Normal (date r).
Proof.
  intros Hrun Hr Hk.
  destruct (aggregate_cases tz newDate st rows Hrun)
    as [[-> _] | (_ & _ & G & rows0 & _ & HG & Hmap & ->)]; [destruct Hr|].
  apply (proj1 (In_sort_rows _ _)) in Hr.
  apply (proj1 (mapM_In _ _ _ Hmap r)) in Hr. destruct Hr as ([key locs] & Hin & Hflat).
  apply flatten_row in Hflat. destruct Hflat as [Hdate Hseries].
  rewrite Hseries in Hk. apply (proj1 (in_flat_map _ _ _)) in Hk.
  destruct Hk as ([loc stats] & Hloc & Hk).
  destruct (group_lookup tz _ _ G key loc locs stats HG Hin Hloc) as (Hinh & Hne & _).
  destruct (groupOf tz _ key loc (dateFiltered newDate st)) as [| d g] eqn:Eg;
    [contradiction|].
  assert (Hd : In d (groupOf tz
                       (aggregationMode tz (newDate (startDate st)) (newDate (endDate st)))
                       key loc (dateFiltered newDate st))) by (rewrite Eg; now left).
  unfold groupOf in Hd. apply filter_In in Hd. destruct Hd as [Hd Hmatch].
  destruct (timeKeyOf tz _ (timestamp d)) as [k0 |] eqn:Ek0; [| discriminate].
  apply andb_true_iff in Hmatch. destruct Hmatch as [E1 E2].
  apply String.eqb_eq in E1. apply String.eqb_eq in E2. subst k0.
  assert (Hm : exists metric, k = (loc ++ "_" ++ Metric.key metric)%string).
  { cbn in Hk. destruct Hk as [E | [E | [E | []]]]; inversion E.
    - now exists Metric.moisture.
    - now exists Metric.ec.
    - now exists Metric.temperature. }
  destruct Hm as [metric Hm].
  exists loc, metric, d. rewrite Hdate. repeat split; assumption.
Qed.

(** X16.  Every entry of a row is keyed [location_metric] for a metric
    and for the location of a kept reading of that bucket, and never for
    a location that names a property of [Object.prototype]: when all kept
    readings have such locations, the rows hold no entry at all. *)
Theorem series_only_for_own_locations
  (st : AppState) (rows : list ChartRow) (r : ChartRow)
  (Hrun : filteredAndAggregatedData tz newDate st = Normal rows)
  (Hr : In r rows) :
  (forall k x, In (k, x) (series r) ->
     exists loc metric d,
       Obj.inherited loc = false
       /\ k = (loc ++ "_" ++ Metric.key metric)%string
       /\ In d (dateFiltered newDate st) /\ location d = loc
       /\ timeKeyOf tz (aggregationMode tz (newDate (startDate st))
                          (newDate (endDate st))) (timestamp d) = Normal (date r))
  /\ ((forall d, In d (dateFiltered newDate st) -> Obj.inherited (location d) = true) ->
      series r = []).
Proof.
  split.
  - intros k x Hk. now apply (series_entry_origin st rows r k x).
  - intros Hall. destruct (series r) as [| [k x] l] eqn:E; [reflexivity|].
    destruct (series_entry_origin st rows r k x Hrun Hr)
      as (loc & _ & d & Hinh & _ & Hd & Hloc & _); [rewrite E; now left|].
    specialize (Hall d Hd). congruence.
Qed.

(** *** Buckets *)

(** X17.  Readings of the same local hour share the hourly key, readings
    of the same local day the daily key, and readings of the same week,
    Sunday to Saturday, the weekly key. *)
Theorem same_period_same_key (t1 t2 : Z) :
  (localTime tz t1 / Cal.msPerHour = localTime tz t2 / Cal.msPerHour ->
   timeKeyOf tz hourly (TimeValue t1) = timeKeyOf tz hourly (TimeValue t2))
  /\ (localDay tz t1 = localDay tz t2 ->
      timeKeyOf tz daily (TimeValue t1) = timeKeyOf tz daily (TimeValue t2))
  /\ ((localDay tz t1 + 4) / 7 = (localDay tz t2 + 4) / 7 ->
      timeKeyOf tz weekly (TimeValue t1) = timeKeyOf tz weekly (TimeValue t2)).
Proof.
  split; [| split]; intros H; cbn [timeKeyOf]; f_equal.
  - unfold startOfHour. f_equal. unfold localTime, Cal.msPerHour in *.
    pose proof (Z.div_mod (t1 + tz) 3600000 ltac:(lia)).
    pose proof (Z.div_mod (t2 + tz) 3600000 ltac:(lia)). lia.
  - unfold startOfDay. now rewrite H.
  - unfold startOfWeek, startOfWeekAt, getDay, Cal.week_day. f_equal.
    set (L1 := localDay tz t1) in *. set (L2 := localDay tz t2) in *.
    assert (H1 : ((L1 + 4) mod 7 <? 0) = false)
      by (apply Z.ltb_ge; apply Z.mod_pos_bound; lia).
    assert (H2 : ((L2 + 4) mod 7 <? 0) = false)
      by (apply Z.ltb_ge; apply Z.mod_pos_bound; lia).
    rewrite H1, H2.
    pose proof (Z.div_mod (L1 + 4) 7 ltac:(lia)).
    pose proof (Z.div_mod (L2 + 4) 7 ltac:(lia)).
    assert (E : L1 - (0 + (L1 + 4) mod 7 - 0) = L2 - (0 + (L2 + 4) mod 7 - 0)) by lia.
    now rewrite E.
Qed.

(** X19.  With a non-empty location filter and all metrics selected,
    every value the memo puts in a row has its line in the chart. *)
Theorem every_series_has_its_line
  (v : ViewState) (rows : list ChartRow) (r : ChartRow) (k : string) (x : float)
  (Hrun : filteredAndAggregatedData tz newDate (app v) = Normal rows)
  (Hsel : selectedLocations (app v) <> [])
  (Hmetrics : forall m, In m (selectedMetrics v))
  (Hr : In r rows) (Hk : In (k, x) (series r)) :
  In k (map dataKey (chartLines v)).
Proof.
  destruct (series_entry_origin (app v) rows r k x Hrun Hr Hk)
    as (loc & metric & d & _ & -> & Hd & Hloc & _).
  apply chartLines_keys. exists loc, metric.
  unfold dateFiltered in Hd. apply filter_In in Hd. destruct Hd as [Hdata Hkeep].
  unfold keep in Hkeep. apply andb_true_iff in Hkeep. destruct Hkeep as [_ Hkeep].
  split; [apply locations_In; eauto|]. split; [| split; [apply Hmetrics | reflexivity]].
  destruct (selectedLocations (app v)) as [| a l] eqn:E; [contradiction|].
  cbn [List.length Nat.eqb orb] in Hkeep. apply includes_In in Hkeep. congruence.
Qed.

End ViewFacts.

(* ================================================================== *)
(** ** The further properties on the sample states                     *)
(* ================================================================== *)

Lemma uploaded_view_reachable :
  reachable KST (Date_parse KST) RefParse.parseFloat uploaded_view.
Proof.
  apply (reach_step KST (Date_parse KST) RefParse.parseFloat initialView
           (ChooseFile (Some e2e_file))); [constructor | exact I].
Qed.


Lemma chart_view_wellFormed : wellFormed (app chart_view).
Proof.
  split; [| split].
  - repeat constructor.
  - repeat constructor; cbn; intuition discriminate.
  - intros x Hx. vm_compute in Hx. vm_compute. tauto.
Qed.



(** After the upload every location is selected, and the button clears. *)
Lemma toggleAllLocations_exact_witness :
  toggleAllLocations (app uploaded_view) = [].
Proof.
  destruct (toggleAllLocations_exact (app uploaded_view)) as (_ & Hall & _).
  - exact (reachable_inv KST (Date_parse KST) RefParse.parseFloat uploaded_view
             uploaded_view_reachable).
  - apply Hall. vm_compute. tauto.
Defined.

Lemma deselect_all_hides_lines_only_witness :
  let v' := handle KST (Date_parse KST) RefParse.parseFloat chart_view
              ToggleAllLocations in
  selectedLocations (app v') = []
  /\ filteredAndAggregatedData KST (Date_parse KST) (app v')
     = filteredAndAggregatedData KST (Date_parse KST) (app chart_view)
  /\ chartLines v' = [].
Proof.
  apply (deselect_all_hides_lines_only KST (Date_parse KST) RefParse.parseFloat
           chart_view).
  - exact chart_view_wellFormed.
  - vm_compute. tauto.
Defined.

Lemma preview_renders_witness :
  exists rows, previewRows KST (app uploaded_view) = Normal rows
    /\ map cell_time rows = ["2024-01-01 01:00"; "2024-01-01 02:00"].
Proof.
  destruct (preview_renders KST (Date_parse KST) RefParse.parseFloat uploaded_view
              uploaded_view_reachable) as [(rows & Hrows & _) _].
  exists rows. split; [exact Hrows|].
  vm_compute in Hrows. inversion Hrows. reflexivity.
Defined.

(** The reading of 2024-01-02 12:00 is kept by the range 01-01 to 01-03. *)
Lemma filter_rule_witness :
  In (reading KST "A" "2024-01-02T12:00" 10)
     (dateFiltered (Date_parse KST) mean_state).
Proof.
  apply (filter_rule (Date_parse KST) mean_state 1704067200000 1704240000000).
  - vm_compute. reflexivity.
  - vm_compute. reflexivity.
  - lia.
  - split; [left; reflexivity|]. split; [| left; reflexivity].
    exists 1704164400000. split; [vm_compute; reflexivity | lia].
Defined.

Lemma invalid_bound_gives_nothing_witness :
  dateFiltered (Date_parse KST) invalid_range_state = []
  /\ filteredAndAggregatedData KST (Date_parse KST) invalid_range_state = Normal [].
Proof.
  apply (invalid_bound_gives_nothing KST (Date_parse KST) invalid_range_state).
  left. vm_compute. reflexivity.
Defined.

Lemma rows_one_per_bucket_witness :
  exists rows,
    filteredAndAggregatedData KST (Date_parse KST) two_hours_state = Normal rows
    /\ NoDup (map date rows)
    /\ StronglySorted date_lt rows
    /\ (List.length rows <= 3)%nat.
Proof.
  eexists. split; [vm_compute; reflexivity|].
  match goal with
  | |- NoDup (map date ?rows) /\ _ =>
      destruct (rows_one_per_bucket KST (Date_parse KST) two_hours_state rows)
        as (Hnd & Hsorted & Hlen & _)
  end.
  - vm_compute. reflexivity.
  - split; [exact Hnd|]. split; [exact Hsorted|].
    etransitivity; [exact Hlen|]. vm_compute. lia.
Defined.


(** A reading at location "toString" opens its bucket and fills nothing. *)
Lemma series_only_for_own_locations_witness :
  filteredAndAggregatedData KST (Date_parse KST) prototype_state
  = Normal [prototype_row]
  /\ series prototype_row = [].
Proof.
  assert (Hrun : filteredAndAggregatedData KST (Date_parse KST) prototype_state
                 = Normal [prototype_row]) by (vm_compute; reflexivity).
  split; [exact Hrun|].
  apply (series_only_for_own_locations KST (Date_parse KST) prototype_state
           [prototype_row] prototype_row Hrun (or_introl eq_refl)).
  intros d Hd. vm_compute in Hd. destruct Hd as [<- | []]. vm_compute. reflexivity.
Defined.

Lemma every_series_has_its_line_witness :
  In "B_moisture" (map dataKey (chartLines chart_view)).
Proof.
  assert (Hrun : exists rows r x,
            filteredAndAggregatedData KST (Date_parse KST) (app chart_view)
            = Normal rows /\ In r rows /\ In ("B_moisture", x) (series r)).
  { eexists. eexists. eexists. split; [vm_compute; reflexivity|].
    split; [left; reflexivity|]. cbn. do 3 right. left. reflexivity. }
  destruct Hrun as (rows & r & x & Hrun & Hr & Hk).
  apply (every_series_has_its_line KST (Date_parse KST) chart_view rows r
           "B_moisture" x Hrun).
  - discriminate.
  - intros m. destruct m; cbn; auto.
  - exact Hr.
  - exact Hk.
Defined.
